(** * Streaming chat page: the SSE handler of [handleSendMessage]

    A shallow embedding of the client-side streaming protocol handler of
    [ProjectChatPage] (the second module of
    [client/src/components/chat/MessageItem.tsx]): the frame decoder that
    cuts the byte stream into blank-line separated blocks, the event parser,
    the dispatch of [token] / [status] / [error] / [done] events, and the
    reconciliation of the optimistic user message. *)

From Stdlib Require Import Strings.String Strings.Ascii Strings.Byte.
From Stdlib Require Import DecimalString.
From Stdlib Require Import NArith Lia Bool List.
Import ListNotations.

#[local] Set Warnings "-register-all".

(** ** JavaScript strings

    A JavaScript string is a sequence of 16-bit code units; the embedding
    keeps them as numbers.  [lit] reads an ASCII literal. *)

Definition codeunit := N.
Definition jsstring := list codeunit.

Definition lit (s : string) : jsstring :=
  map N_of_ascii (list_ascii_of_string s).

(** [jlit] is [lit] with every apostrophe read as a double quote, so that
    JSON text can be written inside a literal. *)
Definition jlit (s : string) : jsstring :=
  map (fun c => if N.eqb c 39 then 34%N else c) (lit s).

Definition LF : codeunit := 10%N.

Fixpoint jsstring_eqb (a b : jsstring) : bool :=
  match a, b with
  | [], [] => true
  | x :: a', y :: b' => N.eqb x y && jsstring_eqb a' b'
  | _, _ => false
  end.

(** [String.prototype.startsWith(p)]. *)
Fixpoint startsWith (p s : jsstring) : bool :=
  match p, s with
  | [], _ => true
  | x :: p', y :: s' => N.eqb x y && startsWith p' s'
  | _ :: _, [] => false
  end.

(** [String.prototype.slice(n)] for a non-negative literal [n]. *)
Definition slice (n : nat) (s : jsstring) : jsstring := skipn n s.

(** The code units [String.prototype.trim] strips: ECMAScript's WhiteSpace
    and LineTerminator. *)
Definition is_whitespace (c : codeunit) : bool :=
  ((9 <=? c) && (c <=? 13) || (c =? 32) || (c =? 160) || (c =? 5760)
   || (8192 <=? c) && (c <=? 8202) || (c =? 8232) || (c =? 8233)
   || (c =? 8239) || (c =? 8287) || (c =? 12288) || (c =? 65279))%N.

Fixpoint trimStart (s : jsstring) : jsstring :=
  match s with
  | c :: s' => if is_whitespace c then trimStart s' else s
  | [] => []
  end.

Definition trimEnd (s : jsstring) : jsstring := rev (trimStart (rev s)).

Definition trim (s : jsstring) : jsstring := trimEnd (trimStart s).

(** ** [String.prototype.split(sep)]

    The pieces between the occurrences of [sep], found left to right
    without overlap.  [cons_head c ps] puts [c] in front of the first
    piece; [split_from k] first passes over the [k] code units that remain
    of a separator just matched. *)

Definition cons_head (c : codeunit) (ps : list jsstring) : list jsstring :=
  match ps with
  | p :: ps' => (c :: p) :: ps'
  | [] => [[c]]
  end.

Fixpoint split_from (sep : jsstring) (k : nat) (s : jsstring) : list jsstring :=
  match s with
  | [] => [[]]
  | c :: s' =>
      match k with
      | S k' => split_from sep k' s'
      | O =>
          if startsWith sep s
          then [] :: split_from sep (length sep - 1) s'
          else cons_head c (split_from sep 0 s')
      end
  end.

Definition split (sep s : jsstring) : list jsstring :=
  match sep with
  | [] => map (fun c => [c]) s
  | _ :: _ => split_from sep 0 s
  end.

(** ** The frame decoder (lines 198-209)

    [buffer += chunk; events = buffer.split("\n\n"); buffer = events.pop() || ""]. *)

Definition block_separator : jsstring := [LF; LF].

(** [events.pop()]: the last element, [undefined] on an empty array. *)
Definition Array_pop {A : Type} (xs : list A) : option A * list A :=
  match rev xs with
  | [] => (None, [])
  | x :: r => (Some x, rev r)
  end.

Definition decode_frames (buffer chunk : jsstring) : list jsstring * jsstring :=
  let buffer := buffer ++ chunk in
  let events := split block_separator buffer in
  let '(last_piece, events) := Array_pop events in
  let buffer := match last_piece with
                | Some ((_ :: _) as p) => p
                | _ => []
                end in
  (events, buffer).

(** The blocks the decoder hands over in the course of a run over the
    decoded texts of successive chunks, and the buffer it ends with. *)
Fixpoint decode_run (buffer : jsstring) (texts : list jsstring)
  : list jsstring * jsstring :=
  match texts with
  | [] => ([], buffer)
  | t :: texts' =>
      let '(events, buffer') := decode_frames buffer t in
      let '(more, final) := decode_run buffer' texts' in
      (events ++ more, final)
  end.

(** [String.prototype.includes(p)]. *)
Fixpoint includes (p s : jsstring) : bool :=
  startsWith p s
  || match s with
     | [] => false
     | _ :: s' => includes p s'
     end.

(** A block of the wire format: it holds no blank line and does not end in
    a line feed, so that the separator after it starts where it ends. *)
Definition well_formed_block (b : jsstring) : bool :=
  negb (includes block_separator (b ++ [LF])).

(** The text of a stream of blocks, each followed by the separator, and of
    an unfinished rest. *)
Fixpoint frame_text (blocks : list jsstring) (rest : jsstring) : jsstring :=
  match blocks with
  | [] => rest
  | b :: blocks' => b ++ block_separator ++ frame_text blocks' rest
  end.

(** ** JavaScript values

    What [JSON.parse] can return, and [undefined].  A number is kept as the
    lexeme it was written with; an object as its members in source order,
    where the last member of a name is the one a property read finds. *)

Inductive JsValue : Type :=
| JUndefined
| JNull
| JBool (b : bool)
| JNum (lexeme : jsstring)
| JStr (s : jsstring)
| JArr (items : list JsValue)
| JObj (props : list (jsstring * JsValue)).

Fixpoint own_property (k : jsstring) (props : list (jsstring * JsValue))
  : option JsValue :=
  match props with
  | [] => None
  | (k', v) :: rest =>
      match own_property k rest with
      | Some w => Some w
      | None => if jsstring_eqb k k' then Some v else None
      end
  end.

(** What the inner [try] (lines 228-257) can catch. *)
Inductive Caught : Type :=
| SyntaxError
| TypeError
| ServerError (message : jsstring).

(** What the outer [try] (lines 142-284) can catch: an [Error] instance
    with its [name] and [message], or some other thrown value. *)
Inductive Thrown : Type :=
| ErrorObj (name message : jsstring)
| NonError.

(** ** The platform

    The services of the browser the handler calls: the [TextDecoder] used
    with [{stream: true}], which consumes bytes one at a time and keeps its
    state between calls; [JSON.parse], where [None] stands for the
    [SyntaxError] it throws; and the two conversions of a number, which
    depend on the double the lexeme denotes. *)

Class Platform : Type := {
  TextDecoder : Type;
  TextDecoder_new : TextDecoder;
  TextDecoder_byte : TextDecoder -> byte -> TextDecoder * jsstring;
  JSON_parse : jsstring -> option JsValue;
  Number_toString : jsstring -> jsstring;
  Number_toBoolean : jsstring -> bool
}.

(** [decoder.decode(value, {stream: true})] *)
Fixpoint TextDecoder_decode `{Platform} (d : TextDecoder) (value : list byte)
  : TextDecoder * jsstring :=
  match value with
  | [] => (d, [])
  | b :: value' =>
      let '(d1, t1) := TextDecoder_byte d b in
      let '(d2, t2) := TextDecoder_decode d1 value' in
      (d2, t1 ++ t2)
  end.

(** The texts the successive calls of [decode] return for the chunks. *)
Fixpoint decode_chunks `{Platform} (d : TextDecoder) (chunks : list (list byte))
  : list jsstring :=
  match chunks with
  | [] => []
  | value :: chunks' =>
      let '(d', chunk) := TextDecoder_decode d value in
      chunk :: decode_chunks d' chunks'
  end.

Section Values.

Context `{Platform}.

(** [v.k] for the property names the handler reads ([content], [status],
    [message], [aiMessage], [userMessage], [id]), none of which is found on
    a prototype: a [TypeError] on [null] and [undefined], the own property
    of an object, [undefined] otherwise. *)
Definition get (v : JsValue) (k : jsstring) : Caught + JsValue :=
  match v with
  | JUndefined | JNull => inl TypeError
  | JObj props =>
      match own_property k props with
      | Some w => inr w
      | None => inr JUndefined
      end
  | _ => inr JUndefined
  end.

Definition ToBoolean (v : JsValue) : bool :=
  match v with
  | JUndefined | JNull => false
  | JBool b => b
  | JNum n => Number_toBoolean n
  | JStr [] => false
  | JStr (_ :: _) => true
  | JArr _ | JObj _ => true
  end.

Fixpoint join (sep : jsstring) (ps : list jsstring) : jsstring :=
  match ps with
  | [] => []
  | [p] => p
  | p :: ps' => p ++ sep ++ join sep ps'
  end.

Fixpoint sequence {A : Type} (xs : list (option A)) : option (list A) :=
  match xs with
  | [] => Some []
  | None :: _ => None
  | Some x :: xs' =>
      match sequence xs' with
      | Some r => Some (x :: r)
      | None => None
      end
  end.

(** The string a value turns into when added to a string or given to
    [new Error]: [None] when the conversion throws a [TypeError], which is
    the case of an object whose own [toString] member (never a function,
    coming from JSON) hides the inherited one. *)
Fixpoint ToString (v : JsValue) : option jsstring :=
  match v with
  | JUndefined => Some (lit "undefined")
  | JNull => Some (lit "null")
  | JBool true => Some (lit "true")
  | JBool false => Some (lit "false")
  | JNum n => Some (Number_toString n)
  | JStr s => Some s
  | JArr items =>
      let item x :=
        match x with
        | JUndefined | JNull => Some []
        | _ => ToString x
        end in
      match sequence (map item items) with
      | Some ps => Some (join (lit ",") ps)
      | None => None
      end
  | JObj props =>
      match own_property (lit "toString") props with
      | Some _ => None
      | None => Some (lit "[object Object]")
      end
  end.

End Values.

(** ** Messages and the page state *)

Inductive Role : Type := user | assistant.

Record Citation : Type := { filename : jsstring; page : N }.

(** [interface Message] *)
Record Message : Type := {
  id : jsstring;
  content : jsstring;
  role : Role;
  created_at : jsstring;
  chat_id : jsstring;
  clerk_id : jsstring;
  citations : option (list Citation)
}.

Definition decimal (n : N) : jsstring :=
  lit (NilZero.string_of_uint (N.to_uint n)).

Definition Role_to_js (r : Role) : JsValue :=
  match r with
  | user => JStr (lit "user")
  | assistant => JStr (lit "assistant")
  end.

Definition Citation_to_js (c : Citation) : JsValue :=
  JObj [(lit "filename", JStr (filename c)); (lit "page", JNum (decimal (page c)))].

(** The object a [Message] is at run time. *)
Definition Message_to_js (m : Message) : JsValue :=
  JObj ([(lit "id", JStr (id m));
         (lit "chat_id", JStr (chat_id m));
         (lit "content", JStr (content m));
         (lit "role", Role_to_js (role m));
         (lit "clerk_id", JStr (clerk_id m));
         (lit "created_at", JStr (created_at m))]
        ++ match citations m with
           | Some cs => [(lit "citations", JArr (map Citation_to_js cs))]
           | None => []
           end).

(** [ChatWithMessages]: its [id], its other members, and the messages,
    which at run time are whatever values were put there. *)
Record ChatWithMessages : Type := {
  chatId : jsstring;
  metadata : list (jsstring * JsValue);
  messages : list JsValue
}.

Definition with_messages (prev : ChatWithMessages) (ms : list JsValue)
  : ChatWithMessages :=
  {| chatId := chatId prev; metadata := metadata prev; messages := ms |}.

Inductive AbortController : Type := new_AbortController.

(** The [useState] cells and the ref the handler writes. *)
Record Page : Type := {
  currentChatData : option ChatWithMessages;
  sendMessageError : option jsstring;
  isMessageSending : bool;
  isStreaming : bool;
  streamingMessage : jsstring;
  agentStatus : JsValue;
  abortControllerRef : option AbortController
}.

(** What the handler does to the outside, in the order it does it. *)
Inductive Effect : Type :=
| Call_getToken
| Call_fetch (url authorization content : jsstring)
| Call_read
| console_warn (e : Caught)
| toast_error (message : jsstring).

Record Machine : Type := { cells : Page; effects : list Effect }.

(** What the handler is given: the values the closure captured at render
    ([projectId], [userId]), the clock, and what [getToken], [fetch] and
    the successive [reader.read()] answer.  A body is a finite sequence of
    chunks that ends with [done: true] ([ending = None]) or with a rejected
    read. *)
Record ReadableStream : Type := {
  chunks : list (list byte);
  ending : option Thrown
}.

Record Response : Type := {
  ok : bool;
  status : N;
  body : option ReadableStream
}.

Record World : Type := {
  API_BASE_URL : jsstring;
  projectId : jsstring;
  userId : option jsstring;
  Date_now : N;
  Date_toISOString : jsstring;
  getToken : Thrown + option jsstring;
  fetch : Thrown + Response
}.

(** ** Statements: state, effects and exceptions *)

Definition M (A : Type) : Type := Machine -> (Thrown + A) * Machine.

Definition ret {A : Type} (a : A) : M A := fun m => (inr a, m).

Definition bind {A B : Type} (c : M A) (k : A -> M B) : M B :=
  fun m =>
    match c m with
    | (inr a, m') => k a m'
    | (inl e, m') => (inl e, m')
    end.

Definition throw {A : Type} (e : Thrown) : M A := fun m => (inl e, m).

Notation "x <- c ;; k" := (bind c (fun x => k))
  (at level 61, c at next level, right associativity).
Notation "c ;; k" := (bind c (fun _ => k))
  (at level 61, right associativity).

(** [try { body } catch (err) { handler } finally { finalizer }] *)
Definition try_catch_finally (body : M unit) (handler : Thrown -> M unit)
  (finalizer : M unit) : M unit :=
  fun m =>
    let '(r1, m1) := body m in
    let '(r2, m2) := match r1 with
                     | inl err => handler err m1
                     | inr _ => (r1, m1)
                     end in
    let '(r3, m3) := finalizer m2 in
    match r3 with
    | inl e => (inl e, m3)
    | inr _ => (r2, m3)
    end.

Definition await {A : Type} (call : Effect) (answer : Thrown + A) : M A :=
  fun m => (answer, {| cells := cells m; effects := effects m ++ [call] |}).

Definition perform (e : Effect) : M unit :=
  fun m => (inr tt, {| cells := cells m; effects := effects m ++ [e] |}).

Definition update (f : Page -> Page) : M unit :=
  fun m => (inr tt, {| cells := f (cells m); effects := effects m |}).

Fixpoint for_of {A : Type} (xs : list A) (body : A -> M unit) : M unit :=
  match xs with
  | [] => ret tt
  | x :: xs' => body x ;; for_of xs' body
  end.

(** The setters. *)
Definition with_currentChatData (v : option ChatWithMessages) (p : Page) : Page :=
  {| currentChatData := v; sendMessageError := sendMessageError p;
     isMessageSending := isMessageSending p; isStreaming := isStreaming p;
     streamingMessage := streamingMessage p; agentStatus := agentStatus p;
     abortControllerRef := abortControllerRef p |}.

Definition with_sendMessageError (v : option jsstring) (p : Page) : Page :=
  {| currentChatData := currentChatData p; sendMessageError := v;
     isMessageSending := isMessageSending p; isStreaming := isStreaming p;
     streamingMessage := streamingMessage p; agentStatus := agentStatus p;
     abortControllerRef := abortControllerRef p |}.

Definition with_isMessageSending (v : bool) (p : Page) : Page :=
  {| currentChatData := currentChatData p; sendMessageError := sendMessageError p;
     isMessageSending := v; isStreaming := isStreaming p;
     streamingMessage := streamingMessage p; agentStatus := agentStatus p;
     abortControllerRef := abortControllerRef p |}.

Definition with_isStreaming (v : bool) (p : Page) : Page :=
  {| currentChatData := currentChatData p; sendMessageError := sendMessageError p;
     isMessageSending := isMessageSending p; isStreaming := v;
     streamingMessage := streamingMessage p; agentStatus := agentStatus p;
     abortControllerRef := abortControllerRef p |}.

Definition with_streamingMessage (v : jsstring) (p : Page) : Page :=
  {| currentChatData := currentChatData p; sendMessageError := sendMessageError p;
     isMessageSending := isMessageSending p; isStreaming := isStreaming p;
     streamingMessage := v; agentStatus := agentStatus p;
     abortControllerRef := abortControllerRef p |}.

Definition with_agentStatus (v : JsValue) (p : Page) : Page :=
  {| currentChatData := currentChatData p; sendMessageError := sendMessageError p;
     isMessageSending := isMessageSending p; isStreaming := isStreaming p;
     streamingMessage := streamingMessage p; agentStatus := v;
     abortControllerRef := abortControllerRef p |}.

Definition with_abortControllerRef (v : option AbortController) (p : Page) : Page :=
  {| currentChatData := currentChatData p; sendMessageError := sendMessageError p;
     isMessageSending := isMessageSending p; isStreaming := isStreaming p;
     streamingMessage := streamingMessage p; agentStatus := agentStatus p;
     abortControllerRef := v |}.

Definition setSendMessageError (v : option jsstring) : M unit :=
  update (with_sendMessageError v).
Definition setIsMessageSending (v : bool) : M unit :=
  update (with_isMessageSending v).
Definition setIsStreaming (v : bool) : M unit :=
  update (with_isStreaming v).
Definition setStreamingMessage (v : jsstring) : M unit :=
  update (with_streamingMessage v).
Definition setAgentStatus (v : JsValue) : M unit :=
  update (with_agentStatus v).
Definition set_abortControllerRef (v : option AbortController) : M unit :=
  update (with_abortControllerRef v).

(** [setCurrentChatData(updater)]: the updater is applied to the current
    value when the setter is called, and what it throws is thrown there. *)
Definition setCurrentChatData
  (updater : option ChatWithMessages -> Thrown + option ChatWithMessages)
  : M unit :=
  fun m =>
    match updater (currentChatData (cells m)) with
    | inr v => update (with_currentChatData v) m
    | inl e => (inl e, m)
    end.

(** ** The conversation reconciler

    The three updaters given to [setCurrentChatData]. *)

Definition is_empty (s : jsstring) : bool :=
  match s with
  | [] => true
  | _ :: _ => false
  end.

(** [a !== s] for a string [s]. *)
Definition differs_from_string (a : JsValue) (s : jsstring) : bool :=
  match a with
  | JStr t => negb (jsstring_eqb t s)
  | _ => true
  end.

(** [[...messages, optimisticUserMessage]] (line 168). *)
Definition appendOptimistic (optimisticUserMessage : Message)
  (messages : list JsValue) : list JsValue :=
  messages ++ [Message_to_js optimisticUserMessage].

(** [messages.filter((m) => m.id !== optimisticId)] (lines 244-246); [None]
    when reading [m.id] throws. *)
Fixpoint without_id (optimisticId : jsstring) (messages : list JsValue)
  : option (list JsValue) :=
  match messages with
  | [] => Some []
  | m :: rest =>
      match get m (lit "id"), without_id optimisticId rest with
      | inr m_id, Some kept =>
          Some (if differs_from_string m_id optimisticId
                then m :: kept else kept)
      | _, _ => None
      end
  end.

(** [[...messages.filter(...), userMessage, aiMessage]] (lines 243-249). *)
Definition finalize (optimisticId : jsstring) (userMessage aiMessage : JsValue)
  (messages : list JsValue) : option (list JsValue) :=
  match without_id optimisticId messages with
  | Some kept => Some (kept ++ [userMessage; aiMessage])
  | None => None
  end.

(** [messages.filter((msg) => !msg.id.startsWith("temp-"))] (line 275);
    [None] when reading [msg.id] throws or gives no string, so that the
    call of [startsWith] throws. *)
Fixpoint rollback (messages : list JsValue) : option (list JsValue) :=
  match messages with
  | [] => Some []
  | msg :: rest =>
      match get msg (lit "id"), rollback rest with
      | inr (JStr msg_id), Some kept =>
          Some (if negb (startsWith (lit "temp-") msg_id)
                then msg :: kept else kept)
      | _, _ => None
      end
  end.

(** ** The event parser (lines 212-226) *)

Definition scan_line (found : jsstring * jsstring) (line : jsstring)
  : jsstring * jsstring :=
  let '(eventType, dataStr) := found in
  if startsWith (lit "event: ") line then (trim (slice 7 line), dataStr)
  else if startsWith (lit "data: ") line then (eventType, slice 6 line)
  else (eventType, dataStr).

Definition parse_block (eventBlock : jsstring) : jsstring * jsstring :=
  let lines := split [LF] eventBlock in
  fold_left scan_line lines ([], []).

Notation "'do' x <- c 'in' k" :=
  (match c with inl e => inl e | inr x => k end)
  (at level 10, x name, c at level 100, k at level 200, only parsing).

(** The last of the lines that start with [marker]. *)
Definition last_line (marker : jsstring) (lines : list jsstring)
  : option jsstring :=
  find (startsWith marker) (rev lines).

(** The id is one the handler gives to an optimistic message. *)
Definition has_temporary_id (m : Message) : bool :=
  startsWith (lit "temp-") (id m).

Section Handler.

Context `{Platform}.

(** ** The dispatch of one event (lines 228-254)

    The body of the inner [try]: the page it leaves, or what it throws.
    An updater given to a setter is applied at the call, so that what it
    throws is thrown inside the [try] as well. *)
Definition dispatch (optimisticId eventType dataStr : jsstring) (p : Page)
  : Caught + Page :=
  match JSON_parse dataStr with
  | None => inl SyntaxError
  | Some data =>
      if jsstring_eqb eventType (lit "token") then
        do data_content <- get data (lit "content") in
        match ToString data_content with
        | Some text => inr (with_streamingMessage (streamingMessage p ++ text) p)
        | None => inl TypeError
        end
      else if jsstring_eqb eventType (lit "status") then
        do data_status <- get data (lit "status") in
        inr (with_agentStatus data_status p)
      else if jsstring_eqb eventType (lit "error") then
        do data_message <- get data (lit "message") in
        let message := if ToBoolean data_message then data_message
                       else JStr (lit "Unknown error") in
        match ToString message with
        | Some text => inl (ServerError text)
        | None => inl TypeError
        end
      else if jsstring_eqb eventType (lit "done") then
        match currentChatData p with
        | None => inr p
        | Some prev =>
            do data_aiMessage <- get data (lit "aiMessage") in
            if ToBoolean data_aiMessage then
              do data_userMessage <- get data (lit "userMessage") in
              if ToBoolean data_userMessage then
                match finalize optimisticId data_userMessage data_aiMessage
                        (messages prev) with
                | Some ms =>
                    inr (with_currentChatData (Some (with_messages prev ms)) p)
                | None => inl TypeError
                end
              else inr p
            else inr p
        end
      else inr p
  end.

(** One turn of [for (const eventBlock of events)] (lines 211-258). *)
Definition process_block (optimisticId eventBlock : jsstring) : M unit :=
  if is_empty (trim eventBlock) then ret tt
  else
    let '(eventType, dataStr) := parse_block eventBlock in
    if is_empty eventType || is_empty dataStr then ret tt
    else
      fun m =>
        match dispatch optimisticId eventType dataStr (cells m) with
        | inr p => (inr tt, {| cells := p; effects := effects m |})
        | inl e => perform (console_warn e) m
        end.

(** [while (true)] (lines 200-259), one turn for each answer of
    [reader.read()]. *)
Fixpoint read_loop (optimisticId : jsstring) (decoder : TextDecoder)
  (buffer : jsstring) (chunks : list (list byte)) (ending : option Thrown)
  : M unit :=
  match chunks with
  | [] =>
      perform Call_read ;;
      match ending with
      | None => ret tt
      | Some err => throw err
      end
  | value :: chunks' =>
      perform Call_read ;;
      let '(decoder, chunk) := TextDecoder_decode decoder value in
      let '(events, buffer) := decode_frames buffer chunk in
      for_of events (process_block optimisticId) ;;
      read_loop optimisticId decoder buffer chunks' ending
  end.

(** ** [handleSendMessage] (lines 136-285) *)

(** Lines 153-161. *)
Definition optimisticUserMessage (w : World) (currentChatData : ChatWithMessages)
  (userId content : jsstring) : Message :=
  {| id := lit "temp-" ++ decimal (Date_now w);
     chat_id := chatId currentChatData;
     content := content;
     role := user;
     clerk_id := userId;
     created_at := Date_toISOString w;
     citations := Some [] |}.

(** The call of [fetch], lines 175-186; the body is the JSON text of
    [{content}], of which the content is kept. *)
Definition fetch_call (w : World) (currentChatData : ChatWithMessages)
  (token : option jsstring) (content : jsstring) : Effect :=
  Call_fetch
    (API_BASE_URL w ++ lit "/api/chat/" ++ projectId w
     ++ lit "/chats/" ++ chatId currentChatData ++ lit "/messages/stream")
    (lit "Bearer " ++ match token with
                      | Some t => t
                      | None => lit "null"
                      end)
    content.

(** The [try] block, lines 142-259. *)
Definition try_block (w : World) (currentChatData : ChatWithMessages)
  (userId content : jsstring) : M unit :=
  setSendMessageError None ;;
  setIsMessageSending true ;;
  setIsStreaming true ;;
  setStreamingMessage [] ;;
  setAgentStatus (JStr []) ;;
  set_abortControllerRef (Some new_AbortController) ;;
  let optimisticUserMessage :=
    optimisticUserMessage w currentChatData userId content in
  setCurrentChatData (fun prev =>
    match prev with
    | None => inr prev
    | Some prev =>
        inr (Some (with_messages prev
               (appendOptimistic optimisticUserMessage (messages prev))))
    end) ;;
  token <- await Call_getToken (getToken w) ;;
  response <- await (fetch_call w currentChatData token content) (fetch w) ;;
  if negb (ok response) then
    throw (ErrorObj (lit "Error")
             (lit "HTTP error! status: " ++ decimal (status response)))
  else
    match body response with
    | None => throw (ErrorObj (lit "Error") (lit "No response body"))
    | Some stream =>
        read_loop (id optimisticUserMessage) TextDecoder_new []
          (chunks stream) (ending stream)
    end.

(** [err instanceof Error && err.name === "AbortError"] *)
Definition is_AbortError (err : Thrown) : bool :=
  match err with
  | ErrorObj name _ => jsstring_eqb name (lit "AbortError")
  | NonError => false
  end.

(** What the call of [startsWith] on an [id] that is no string throws (the
    text is the engine's). *)
Definition TypeError_in_updater : Thrown :=
  ErrorObj (lit "TypeError") (lit "msg.id.startsWith is not a function").

(** [err instanceof Error ? err.message : "Failed to send message"] *)
Definition errorMessage_of (err : Thrown) : jsstring :=
  match err with
  | ErrorObj _ message => message
  | NonError => lit "Failed to send message"
  end.

(** The [catch] block, lines 260-277. *)
Definition catch_block (err : Thrown) : M unit :=
  if is_AbortError err then ret tt
  else
    let errorMessage := errorMessage_of err in
    setSendMessageError (Some errorMessage) ;;
    perform (toast_error errorMessage) ;;
    setCurrentChatData (fun prev =>
      match prev with
      | None => inr prev
      | Some prev =>
          match rollback (messages prev) with
          | Some ms => inr (Some (with_messages prev ms))
          | None => inl TypeError_in_updater
          end
      end).

(** The [finally] block, lines 278-284. *)
Definition finally_block : M unit :=
  setIsMessageSending false ;;
  setIsStreaming false ;;
  setStreamingMessage [] ;;
  setAgentStatus (JStr []) ;;
  set_abortControllerRef None.

Definition handleSendMessage (w : World) (content : jsstring) : M unit :=
  fun m =>
    match currentChatData (cells m), userId w with
    | Some currentChatData, Some ((_ :: _) as userId) =>
        try_catch_finally
          (try_block w currentChatData userId content)
          catch_block
          finally_block
          m
    | _, _ => setSendMessageError (Some (lit "Chat or user not found")) m
    end.

End Handler.

(** ** What a block does

    [process_block] read as a function of the page: the page it leaves and
    what it adds to the effects; and the same for a sequence of blocks. *)

Section Outcomes.

Context `{Platform}.

Definition block_outcome (optimisticId eventBlock : jsstring) (p : Page)
  : Page * list Effect :=
  if is_empty (trim eventBlock) then (p, [])
  else
    let '(eventType, dataStr) := parse_block eventBlock in
    if is_empty eventType || is_empty dataStr then (p, [])
    else
      match dispatch optimisticId eventType dataStr p with
      | inr p' => (p', [])
      | inl e => (p, [console_warn e])
      end.

Fixpoint blocks_outcome (optimisticId : jsstring) (blocks : list jsstring)
  (p : Page) : Page * list Effect :=
  match blocks with
  | [] => (p, [])
  | b :: blocks' =>
      let '(p1, es1) := block_outcome optimisticId b p in
      let '(p2, es2) := blocks_outcome optimisticId blocks' p1 in
      (p2, es1 ++ es2)
  end.

(** The page when the request goes out (lines 143-170). *)
Definition started_page (optimistic : Message) (p : Page) : Page :=
  {| currentChatData :=
       match currentChatData p with
       | None => None
       | Some prev =>
           Some (with_messages prev (appendOptimistic optimistic (messages prev)))
       end;
     sendMessageError := None;
     isMessageSending := true;
     isStreaming := true;
     streamingMessage := [];
     agentStatus := JStr [];
     abortControllerRef := Some new_AbortController |}.

(** The page the [finally] block leaves. *)
Definition released_page (p : Page) : Page :=
  {| currentChatData := currentChatData p;
     sendMessageError := sendMessageError p;
     isMessageSending := false;
     isStreaming := false;
     streamingMessage := [];
     agentStatus := JStr [];
     abortControllerRef := None |}.

(** The precondition of line 137 holds. *)
Definition can_send (w : World) (p : Page) : bool :=
  match currentChatData p, userId w with
  | Some _, Some (_ :: _) => true
  | _, _ => false
  end.

Definition is_read (e : Effect) : bool :=
  match e with
  | Call_read => true
  | _ => false
  end.

Definition is_toast (e : Effect) : bool :=
  match e with
  | toast_error _ => true
  | _ => false
  end.

End Outcomes.

(** ** A browser

    The platform the examples run on: the UTF-8 decoder and the JSON
    grammar as their standards give them.  [Number_toString] is exact on
    the integers below 2^53 written without fraction and exponent, and
    returns the other lexemes as they are written; [Number_toBoolean] is
    exact but for a non-zero lexeme too small for a double. *)

Module Browser.

(** *** The UTF-8 decoder of the Encoding standard *)

Record Utf8 : Type := {
  bytes_needed : N;
  bytes_seen : N;
  code_point : N;
  lower_boundary : N;
  upper_boundary : N;
  BOM_seen : bool
}.

Definition Utf8_new : Utf8 :=
  {| bytes_needed := 0; bytes_seen := 0; code_point := 0;
     lower_boundary := 128; upper_boundary := 191; BOM_seen := false |}.

Definition Utf8_reset (d : Utf8) : Utf8 :=
  {| bytes_needed := 0; bytes_seen := 0; code_point := 0;
     lower_boundary := 128; upper_boundary := 191; BOM_seen := BOM_seen d |}.

Definition Utf8_expect (d : Utf8) (needed cp lo hi : N) : Utf8 :=
  {| bytes_needed := needed; bytes_seen := 0; code_point := cp;
     lower_boundary := lo; upper_boundary := hi; BOM_seen := BOM_seen d |}.

(** A byte met when no sequence is open. *)
Definition Utf8_lead (d : Utf8) (b : N) : Utf8 * list N :=
  (if b <=? 127 then (d, [b])
   else if (194 <=? b) && (b <=? 223)
   then (Utf8_expect d 1 (N.land b 31) 128 191, [])
   else if (224 <=? b) && (b <=? 239)
   then (Utf8_expect d 2 (N.land b 15)
           (if b =? 224 then 160 else 128) (if b =? 237 then 159 else 191), [])
   else if (240 <=? b) && (b <=? 244)
   then (Utf8_expect d 3 (N.land b 7)
           (if b =? 240 then 144 else 128) (if b =? 244 then 143 else 191), [])
   else (d, [65533]))%N.

(** The handler: the code points a byte completes.  A byte that breaks an
    open sequence yields U+FFFD and is then read again as a lead byte. *)
Definition Utf8_handler (d : Utf8) (b : N) : Utf8 * list N :=
  (if bytes_needed d =? 0 then Utf8_lead d b
   else if (b <? lower_boundary d) || (upper_boundary d <? b)
   then let '(d', cps) := Utf8_lead (Utf8_reset d) b in (d', 65533 :: cps)
   else
     let cp := N.lor (N.shiftl (code_point d) 6) (N.land b 63) in
     if bytes_seen d + 1 =? bytes_needed d
     then (Utf8_reset d, [cp])
     else ({| bytes_needed := bytes_needed d; bytes_seen := bytes_seen d + 1;
              code_point := cp; lower_boundary := 128; upper_boundary := 191;
              BOM_seen := BOM_seen d |}, []))%N.

Definition utf16 (cp : N) : jsstring :=
  (if cp <? 65536 then [cp]
   else [55296 + (cp - 65536) / 1024; 56320 + (cp - 65536) mod 1024])%N.

(** The first code point of the stream is dropped when it is U+FEFF. *)
Fixpoint Utf8_serialize (d : Utf8) (cps : list N) : Utf8 * jsstring :=
  match cps with
  | [] => (d, [])
  | cp :: cps' =>
      if BOM_seen d then
        let '(d', t) := Utf8_serialize d cps' in (d', utf16 cp ++ t)
      else
        let d1 := {| bytes_needed := bytes_needed d; bytes_seen := bytes_seen d;
                     code_point := code_point d;
                     lower_boundary := lower_boundary d;
                     upper_boundary := upper_boundary d; BOM_seen := true |} in
        let '(d', t) := Utf8_serialize d1 cps' in
        (d', if N.eqb cp 65279 then t else utf16 cp ++ t)
  end.

Definition Utf8_byte (d : Utf8) (b : byte) : Utf8 * jsstring :=
  let '(d1, cps) := Utf8_handler d (Byte.to_N b) in
  Utf8_serialize d1 cps.

(** *** [JSON.parse] *)

Definition is_json_whitespace (c : codeunit) : bool :=
  ((c =? 32) || (c =? 9) || (c =? 10) || (c =? 13))%N.

Fixpoint skip_whitespace (s : jsstring) : jsstring :=
  match s with
  | c :: s' => if is_json_whitespace c then skip_whitespace s' else s
  | [] => []
  end.

Definition is_digit (c : codeunit) : bool := ((48 <=? c) && (c <=? 57))%N.

Fixpoint take_digits (s : jsstring) : jsstring * jsstring :=
  match s with
  | c :: s' =>
      if is_digit c
      then let '(ds, rest) := take_digits s' in (c :: ds, rest)
      else ([], s)
  | [] => ([], [])
  end.

(** The lexeme of a number at the head of [s], and what follows it. *)
Definition parse_number (s : jsstring) : option (jsstring * jsstring) :=
  let '(sign, s1) := match s with
                     | 45%N :: r => ([45%N], r)
                     | _ => ([], s)
                     end in
  let int_part := match s1 with
                  | 48%N :: r => Some ([48%N], r)
                  | c :: _ => if is_digit c then Some (take_digits s1) else None
                  | [] => None
                  end in
  match int_part with
  | None => None
  | Some (int, s2) =>
      let frac_part := match s2 with
                       | 46%N :: r =>
                           match take_digits r with
                           | ([], _) => None
                           | (ds, r') => Some (46%N :: ds, r')
                           end
                       | _ => Some ([], s2)
                       end in
      match frac_part with
      | None => None
      | Some (frac, s3) =>
          let exp_part :=
            match s3 with
            | e :: r =>
                if ((e =? 101) || (e =? 69))%N then
                  let '(esign, r1) := match r with
                                      | c :: r' =>
                                          if ((c =? 43) || (c =? 45))%N
                                          then ([c], r') else ([], r)
                                      | [] => ([], r)
                                      end in
                  match take_digits r1 with
                  | ([], _) => None
                  | (ds, r2) => Some (e :: esign ++ ds, r2)
                  end
                else Some ([], s3)
            | [] => Some ([], s3)
            end in
          match exp_part with
          | None => None
          | Some (exp, s4) => Some (sign ++ int ++ frac ++ exp, s4)
          end
      end
  end.

Definition hex_digit (c : codeunit) : option N :=
  (if (48 <=? c) && (c <=? 57) then Some (c - 48)
   else if (97 <=? c) && (c <=? 102) then Some (c - 87)
   else if (65 <=? c) && (c <=? 70) then Some (c - 55)
   else None)%N.

(** The characters of a string after its opening quote, up to the closing
    one. *)
Fixpoint parse_characters (s : jsstring) : option (jsstring * jsstring) :=
  match s with
  | [] => None
  | 34%N :: rest => Some ([], rest)
  | 92%N :: escape =>
      match escape with
      | 117%N :: h1 :: h2 :: h3 :: h4 :: rest =>
          match hex_digit h1, hex_digit h2, hex_digit h3, hex_digit h4 with
          | Some a, Some b, Some c, Some d =>
              match parse_characters rest with
              | Some (cs, r) => Some ((a * 4096 + b * 256 + c * 16 + d)%N :: cs, r)
              | None => None
              end
          | _, _, _, _ => None
          end
      | e :: rest =>
          let unescaped :=
            (if e =? 34 then Some 34 else if e =? 92 then Some 92
             else if e =? 47 then Some 47 else if e =? 98 then Some 8
             else if e =? 102 then Some 12 else if e =? 110 then Some 10
             else if e =? 114 then Some 13 else if e =? 116 then Some 9
             else None)%N in
          match unescaped, parse_characters rest with
          | Some c, Some (cs, r) => Some (c :: cs, r)
          | _, _ => None
          end
      | [] => None
      end
  | c :: rest =>
      if (c <? 32)%N then None
      else
        match parse_characters rest with
        | Some (cs, r) => Some (c :: cs, r)
        | None => None
        end
  end.

Fixpoint parse_value (fuel : nat) (s : jsstring) : option (JsValue * jsstring) :=
  match fuel with
  | O => None
  | S fuel' =>
      match skip_whitespace s with
      | [] => None
      | c :: rest =>
          if (c =? 123)%N then
            match skip_whitespace rest with
            | 125%N :: rest' => Some (JObj [], rest')
            | _ =>
                match parse_members fuel' rest with
                | Some (props, rest') => Some (JObj props, rest')
                | None => None
                end
            end
          else if (c =? 91)%N then
            match skip_whitespace rest with
            | 93%N :: rest' => Some (JArr [], rest')
            | _ =>
                match parse_elements fuel' rest with
                | Some (items, rest') => Some (JArr items, rest')
                | None => None
                end
            end
          else if (c =? 34)%N then
            match parse_characters rest with
            | Some (cs, rest') => Some (JStr cs, rest')
            | None => None
            end
          else if startsWith (lit "true") (c :: rest)
          then Some (JBool true, skipn 4 (c :: rest))
          else if startsWith (lit "false") (c :: rest)
          then Some (JBool false, skipn 5 (c :: rest))
          else if startsWith (lit "null") (c :: rest)
          then Some (JNull, skipn 4 (c :: rest))
          else
            match parse_number (c :: rest) with
            | Some (lexeme, rest') => Some (JNum lexeme, rest')
            | None => None
            end
      end
  end
with parse_elements (fuel : nat) (s : jsstring)
  : option (list JsValue * jsstring) :=
  match fuel with
  | O => None
  | S fuel' =>
      match parse_value fuel' s with
      | None => None
      | Some (v, rest) =>
          match skip_whitespace rest with
          | 93%N :: rest' => Some ([v], rest')
          | 44%N :: rest' =>
              match parse_elements fuel' rest' with
              | Some (vs, rest'') => Some (v :: vs, rest'')
              | None => None
              end
          | _ => None
          end
      end
  end
with parse_members (fuel : nat) (s : jsstring)
  : option (list (jsstring * JsValue) * jsstring) :=
  match fuel with
  | O => None
  | S fuel' =>
      match skip_whitespace s with
      | 34%N :: rest =>
          match parse_characters rest with
          | None => None
          | Some (k, rest1) =>
              match skip_whitespace rest1 with
              | 58%N :: rest2 =>
                  match parse_value fuel' rest2 with
                  | None => None
                  | Some (v, rest3) =>
                      match skip_whitespace rest3 with
                      | 125%N :: rest' => Some ([(k, v)], rest')
                      | 44%N :: rest' =>
                          match parse_members fuel' rest' with
                          | Some (props, rest'') => Some ((k, v) :: props, rest'')
                          | None => None
                          end
                      | _ => None
                      end
                  end
              | _ => None
              end
          end
      | _ => None
      end
  end.

Definition parse (text : jsstring) : option JsValue :=
  match parse_value (2 * length text + 2) text with
  | Some (v, rest) => if is_empty (skip_whitespace rest) then Some v else None
  | None => None
  end.

(** *** Numbers *)

Fixpoint mantissa (lexeme : jsstring) : jsstring :=
  match lexeme with
  | [] => []
  | c :: r => if ((c =? 101) || (c =? 69))%N then [] else c :: mantissa r
  end.

Definition toBoolean (lexeme : jsstring) : bool :=
  existsb (fun c => ((49 <=? c) && (c <=? 57))%N) (mantissa lexeme).

Definition toString (lexeme : jsstring) : jsstring :=
  if jsstring_eqb lexeme (lit "-0") then lit "0" else lexeme.

#[export] Instance platform : Platform := {|
  TextDecoder := Utf8;
  TextDecoder_new := Utf8_new;
  TextDecoder_byte := Utf8_byte;
  JSON_parse := parse;
  Number_toString := toString;
  Number_toBoolean := toBoolean
|}.

(** The bytes of an ASCII text. *)
Definition bytes (s : jsstring) : list byte :=
  map (fun c => match Byte.of_N c with Some b => b | None => x00 end) s.

End Browser.

(** ** A conversation to run the handler on *)

Module Scenario.

Definition chat : ChatWithMessages :=
  {| chatId := lit "c1"; metadata := []; messages := [] |}.

Definition idle_page (c : option ChatWithMessages) : Page :=
  {| currentChatData := c;
     sendMessageError := None;
     isMessageSending := false;
     isStreaming := false;
     streamingMessage := [];
     agentStatus := JStr [];
     abortControllerRef := None |}.

Definition idle (c : option ChatWithMessages) : Machine :=
  {| cells := idle_page c; effects := [] |}.

Definition world (u : option jsstring) (answer : Thrown + Response) : World :=
  {| API_BASE_URL := lit "http://localhost:8000";
     projectId := lit "p1";
     userId := u;
     Date_now := 1700000000000;
     Date_toISOString := lit "2023-11-14T22:13:20.000Z";
     getToken := inr (Some (lit "tok"));
     fetch := answer |}.

Definition streaming (texts : list jsstring) (ending : option Thrown)
  : Thrown + Response :=
  inr {| ok := true; status := 200;
         body := Some {| chunks := map Browser.bytes texts;
                         ending := ending |} |}.

(** The [Message] the handler makes of ["Hello"] in this world. *)
Definition hello : Message :=
  {| id := lit "temp-1700000000000";
     chat_id := lit "c1";
     content := lit "Hello";
     role := user;
     clerk_id := lit "user_1";
     created_at := lit "2023-11-14T22:13:20.000Z";
     citations := Some [] |}.

Definition persisted (i : string) (r : Role) (text : string) : Message :=
  {| id := lit i;
     chat_id := lit "c1";
     content := lit text;
     role := r;
     clerk_id := lit "user_1";
     created_at := lit "2023-11-14T22:13:21.000Z";
     citations := None |}.

Definition the_fetch : Effect :=
  Call_fetch (lit "http://localhost:8000/api/chat/p1/chats/c1/messages/stream")
    (lit "Bearer tok") (lit "Hello").

(** [event: error] with the message ["rate limited"]. *)
Definition rate_limited : jsstring :=
  lit "event: error" ++ [LF] ++ jlit "data: {'message':'rate limited'}"
  ++ [LF; LF].

(** A temporary message left over from an earlier send. *)
Definition stale : Message :=
  {| id := lit "temp-1600000000000";
     chat_id := lit "c1";
     content := lit "Earlier";
     role := user;
     clerk_id := lit "user_1";
     created_at := lit "2020-09-13T12:26:40.000Z";
     citations := Some [] |}.

Definition failing (code : N) : Thrown + Response :=
  inr {| ok := false; status := code; body := None |}.

End Scenario.

(** ** The rest of the page

    The other cells of [ProjectChatPage] (lines 108-127), its other
    handlers and what it renders. *)

Inductive Rating : Type := like | dislike.

(** The value of [feedbackModal] when it is open. *)
Record FeedbackModal : Type := { messageId : jsstring; type : Rating }.

(** The argument of [handleFeedbackSubmit]. *)
Record Feedback : Type := {
  rating : Rating;
  comment : option jsstring;
  category : option jsstring
}.

Record Component : Type := {
  send_cells : Page;
  isLoadingChatData : bool;
  feedbackModal : option FeedbackModal
}.

(** What the page does to the outside: what [handleSendMessage] does, the
    calls of [apiClient], the success toast and the abort of the request
    in flight. *)
Inductive Action : Type :=
| of_send (e : Effect)
| apiClient_get (url : jsstring) (token : option jsstring)
| apiClient_post (url message_id : jsstring) (rating : Rating)
    (comment category : option jsstring) (token : option jsstring)
| toast_success (message : jsstring)
| AbortController_abort.

Record Mounted : Type := { component : Component; actions : list Action }.

(** The first render: the initial values of [useState] and [useRef]. *)
Definition first_render : Component :=
  {| send_cells :=
       {| currentChatData := None;
          sendMessageError := None;
          isMessageSending := false;
          isStreaming := false;
          streamingMessage := [];
          agentStatus := JStr [];
          abortControllerRef := None |};
     isLoadingChatData := true;
     feedbackModal := None |}.

Definition with_send_cells (p : Page) (c : Component) : Component :=
  {| send_cells := p; isLoadingChatData := isLoadingChatData c;
     feedbackModal := feedbackModal c |}.

Definition with_isLoadingChatData (v : bool) (c : Component) : Component :=
  {| send_cells := send_cells c; isLoadingChatData := v;
     feedbackModal := feedbackModal c |}.

Definition with_feedbackModal (v : option FeedbackModal) (c : Component)
  : Component :=
  {| send_cells := send_cells c; isLoadingChatData := isLoadingChatData c;
     feedbackModal := v |}.

Definition act (a : Action) (s : Mounted) : Mounted :=
  {| component := component s; actions := actions s ++ [a] |}.

Definition set_component (f : Component -> Component) (s : Mounted) : Mounted :=
  {| component := f (component s); actions := actions s |}.

(** [!userId] is false. *)
Definition signed_in (w : World) : bool :=
  match userId w with
  | Some (_ :: _) => true
  | _ => false
  end.

(** [handleFeedbackOpen] (lines 293-295). *)
Definition handleFeedbackOpen (messageId : jsstring) (type : Rating)
  (s : Mounted) : Mounted :=
  set_component
    (with_feedbackModal (Some {| messageId := messageId; type := type |})) s.

(** [handleFeedbackSubmit] (lines 297-324); [post] is what
    [apiClient.post] answers. *)
Definition handleFeedbackSubmit (w : World) (post : Thrown + unit)
  (feedback : Feedback) (s : Mounted) : Mounted :=
  match signed_in w, feedbackModal (component s) with
  | true, Some modal =>
      let s1 := act (of_send Call_getToken) s in
      let s2 :=
        match getToken w with
        | inl _ =>
            act (of_send
                   (toast_error
                      (lit "Failed to submit feedback. Please try again."))) s1
        | inr token =>
            let s1 := act (apiClient_post (lit "/api/feedback")
                             (messageId modal) (rating feedback)
                             (comment feedback) (category feedback) token) s1 in
            match post with
            | inl _ =>
                act (of_send
                       (toast_error
                          (lit "Failed to submit feedback. Please try again.")))
                  s1
            | inr _ => act (toast_success (lit "Thanks for your feedback!")) s1
            end
        end in
      set_component (with_feedbackModal None) s2
  | _, _ => s
  end.

(** [loadChat] (lines 327-344); [answer] is what [apiClient.get] answers:
    a rejection, or the [data] of its result. *)
Definition loadChat (w : World) (chatId : jsstring)
  (answer : Thrown + option ChatWithMessages) (s : Mounted) : Mounted :=
  if signed_in w then
    let s1 := set_component (with_isLoadingChatData true) s in
    let s1 := act (of_send Call_getToken) s1 in
    let s2 :=
      match getToken w with
      | inl _ =>
          act (of_send
                 (toast_error (lit "Failed to load chat. Please try again."))) s1
      | inr token =>
          let s1 := act (apiClient_get (lit "/api/chat/" ++ chatId) token) s1 in
          match answer with
          | inl _ =>
              act (of_send
                     (toast_error
                        (lit "Failed to load chat. Please try again."))) s1
          | inr chatData =>
              let s1 :=
                set_component
                  (fun c => with_send_cells
                              (with_currentChatData chatData (send_cells c)) c)
                  s1 in
              act (toast_success (lit "Chat loaded")) s1
          end
      end in
    set_component (with_isLoadingChatData false) s2
  else s.

(** The cleanup on unmount (lines 350-356). *)
Definition cleanup (s : Mounted) : Mounted :=
  match abortControllerRef (send_cells (component s)) with
  | Some _ => act AbortController_abort s
  | None => s
  end.

(** [onDismissError] (line 375) and [onCancel] (line 384). *)
Definition onDismissError (s : Mounted) : Mounted :=
  set_component
    (fun c => with_send_cells (with_sendMessageError None (send_cells c)) c) s.

Definition onCancel (s : Mounted) : Mounted :=
  set_component (with_feedbackModal None) s.

(** [handleSendMessage] as a handler of the mounted page. *)
Definition onSendMessage `{Platform} (w : World) (content : jsstring)
  (s : Mounted) : (Thrown + unit) * Mounted :=
  let '(r, m) :=
    handleSendMessage w content
      {| cells := send_cells (component s); effects := [] |} in
  (r, {| component := with_send_cells (cells m) (component s);
         actions := actions s ++ map of_send (effects m) |}).

(** What the page returns (lines 358-387): the props of [ChatInterface]
    and of [MessageFeedbackModal], but the handlers. *)
Record ChatProps : Type := {
  chat : ChatWithMessages;
  props_projectId : jsstring;
  isLoading : bool;
  error : option jsstring;
  props_isStreaming : bool;
  props_streamingMessage : jsstring;
  props_agentStatus : JsValue;
  isOpen : bool;
  feedbackType : option Rating
}.

Inductive View : Type :=
| LoadingSpinner (message : jsstring)
| NotFound (message : jsstring)
| ChatInterface (props : ChatProps).

Definition render (w : World) (c : Component) : View :=
  if isLoadingChatData c then LoadingSpinner (lit "Loading chat...")
  else
    match currentChatData (send_cells c) with
    | None => NotFound (lit "Chat not found")
    | Some currentChatData =>
        ChatInterface
          {| chat := currentChatData;
             props_projectId := projectId w;
             isLoading := isMessageSending (send_cells c);
             error := sendMessageError (send_cells c);
             props_isStreaming := isStreaming (send_cells c);
             props_streamingMessage := streamingMessage (send_cells c);
             props_agentStatus := agentStatus (send_cells c);
             isOpen := match feedbackModal c with
                       | Some _ => true
                       | None => false
                       end;
             feedbackType := match feedbackModal c with
                             | Some modal => Some (type modal)
                             | None => None
                             end |}
    end.

(** ** Words for the properties of the stream *)

(** The chat is the same but for its messages. *)
Definition same_chat (a b : option ChatWithMessages) : Prop :=
  match a, b with
  | None, None => True
  | Some x, Some y => chatId x = chatId y /\ metadata x = metadata y
  | _, _ => False
  end.

Section Blocks.

Context `{Platform}.

(** A block that is dispatched as the event [eventType] with the decoded
    payload [data]. *)
Definition is_event (eventBlock eventType : jsstring) (data : JsValue) : Prop :=
  is_empty (trim eventBlock) = false
  /\ exists dataStr,
       parse_block eventBlock = (eventType, dataStr)
       /\ is_empty dataStr = false
       /\ JSON_parse dataStr = Some data.

(** A [token] event whose content is the string [text]. *)
Definition is_token_block (eventBlock text : jsstring) : Prop :=
  exists data,
    is_event eventBlock (lit "token") data
    /\ get data (lit "content") = inr (JStr text).

(** A [status] event whose payload is not [null], with what it has as
    [status]. *)
Definition is_status_block (eventBlock : jsstring) (value : JsValue) : Prop :=
  exists data,
    is_event eventBlock (lit "status") data
    /\ get data (lit "status") = inr value.

(** A [token] event with a string as content, or a [status] event. *)
Definition is_progress_block (eventBlock : jsstring) : Prop :=
  (exists text, is_token_block eventBlock text)
  \/ (exists value, is_status_block eventBlock value).

End Blocks.

(** * Properties *)

(** ** The browser at work *)

Example parse_object :
  Browser.parse (jlit "{'a': [1, true, null], 'b': 'x\u0041'}")
  = Some (JObj [(lit "a", JArr [JNum (lit "1"); JBool true; JNull]);
                (lit "b", JStr (lit "xA"))]).
Proof. reflexivity. Qed.

Example parse_rejects :
  Browser.parse (jlit "{oops") = None
  /\ Browser.parse (jlit "[1,]") = None
  /\ Browser.parse (jlit "01") = None
  /\ Browser.parse [] = None.
Proof. repeat split; reflexivity. Qed.

(** A character of two bytes and one of four, each cut in two by the end
    of a chunk, after a byte order mark. *)
Example decode_across_chunks :
  decode_chunks (H := Browser.platform) Browser.Utf8_new
    [[xef; xbb]; [xbf; x41; xc3]; [xa9; xf0; x9f]; [x98; x80]]
  = [[]; [65%N]; [233%N]; [55357%N; 56832%N]].
Proof. reflexivity. Qed.

Example split_lines :
  split [LF; LF] (lit "a" ++ [LF; LF; LF] ++ lit "b" ++ [LF; LF])
  = [lit "a"; [LF] ++ lit "b"; []].
Proof. reflexivity. Qed.

(** ** Facts on [split] *)

Lemma split_from_skip sep k s :
  split_from sep k s = split_from sep 0 (skipn k s).
Proof.
  revert k; induction s as [|c s IH]; intros [|k]; simpl; auto.
Qed.

Lemma split_from_nonempty sep k s : split_from sep k s <> [].
Proof.
  revert k; induction s as [|c s IH]; intros k; simpl; [discriminate|].
  destruct k as [|k]; [|apply IH].
  destruct (startsWith sep (c :: s)); [discriminate|].
  specialize (IH 0). destruct (split_from sep 0 s); [congruence|discriminate].
Qed.

Lemma startsWith_app p s : startsWith p (p ++ s) = true.
Proof.
  induction p as [|x p IH]; simpl; auto.
  now rewrite N.eqb_refl.
Qed.

Lemma startsWith_prefix p s :
  startsWith p s = true -> exists r, s = p ++ r.
Proof.
  revert s; induction p as [|x p IH]; intros s H; simpl in *.
  - now exists s.
  - destruct s as [|y s]; [discriminate|].
    apply andb_prop in H as [Hxy Hp].
    apply N.eqb_eq in Hxy; subst y.
    destruct (IH _ Hp) as [r ->]. now exists r.
Qed.

Lemma startsWith_short p s :
  length s < length p -> startsWith p s = false.
Proof.
  revert s; induction p as [|x p IH]; intros s H; simpl in *; [lia|].
  destruct s as [|y s]; [reflexivity|].
  simpl in H. rewrite IH by lia. apply andb_false_r.
Qed.

Lemma startsWith_app_l p a b :
  startsWith p a = true -> startsWith p (a ++ b) = true.
Proof.
  intros H. destruct (startsWith_prefix _ _ H) as [r ->].
  rewrite <- app_assoc. apply startsWith_app.
Qed.

Lemma startsWith_straddle p a b :
  startsWith p a = false -> startsWith p (a ++ b) = true ->
  length a < length p.
Proof.
  revert a; induction p as [|x p IH]; intros a Ha Hab; simpl in *.
  - discriminate.
  - destruct a as [|y a]; simpl in *; [lia|].
    apply andb_prop in Hab as [Hxy Hab]. rewrite Hxy in Ha. simpl in Ha.
    specialize (IH _ Ha Hab). lia.
Qed.

Section SplitFacts.

Variable sep : jsstring.
Hypothesis sep_nonempty : sep <> [].

Lemma split_from_unfold c s :
  split_from sep 0 (c :: s) =
  if startsWith sep (c :: s)
  then [] :: split_from sep 0 (skipn (length sep) (c :: s))
  else cons_head c (split_from sep 0 s).
Proof.
  simpl split_from at 1.
  destruct (startsWith sep (c :: s)); [|reflexivity].
  rewrite split_from_skip. destruct sep as [|x p]; [congruence|].
  simpl. now rewrite PeanoNat.Nat.sub_0_r.
Qed.

Lemma split_from_single s x : split_from sep 0 s = [x] -> x = s.
Proof.
  revert x; induction s as [|c s IH]; intros x H.
  - simpl in H. congruence.
  - simpl in H. destruct (startsWith sep (c :: s)).
    + injection H as H1 H2. elim (split_from_nonempty _ _ _ H2).
    + destruct (split_from sep 0 s) as [|p [|q r]] eqn:E; simpl in H.
      * elim (split_from_nonempty _ _ _ E).
      * injection H as <-. f_equal. now apply IH.
      * discriminate.
Qed.

Lemma split_from_short s :
  length s < length sep -> split_from sep 0 s = [s].
Proof.
  induction s as [|c s IH]; intros H; [reflexivity|].
  simpl. rewrite (startsWith_short sep (c :: s) H).
  simpl in H. rewrite IH by lia. reflexivity.
Qed.

(** Splitting a text that arrives in two parts: the complete pieces of the
    first part stand, and its last piece is split again together with the
    second part. *)
Lemma split_from_app a b :
  split_from sep 0 (a ++ b) =
  removelast (split_from sep 0 a)
  ++ split_from sep 0 (last (split_from sep 0 a) [] ++ b).
Proof.
  remember (length a) as n eqn:Hn. revert a Hn.
  induction n as [n IH] using (well_founded_induction Wf_nat.lt_wf).
  intros [|c a] Hn; [reflexivity|].
  rewrite <- app_comm_cons.
  rewrite (split_from_unfold c (a ++ b)), (split_from_unfold c a).
  rewrite app_comm_cons.
  destruct (startsWith sep (c :: a)) eqn:Ha.
  - rewrite (startsWith_app_l _ _ b Ha).
    destruct (startsWith_prefix _ _ Ha) as [r Hr].
    rewrite Hr, <- app_assoc, !skipn_app, !skipn_all.
    rewrite PeanoNat.Nat.sub_diag. simpl skipn. simpl app at 1 3.
    assert (Hlen : length r < n).
    { subst n. rewrite Hr, length_app.
      destruct sep; [congruence|simpl; lia]. }
    rewrite (IH _ Hlen r eq_refl).
    pose proof (split_from_nonempty sep 0 r) as Hne.
    destruct (split_from sep 0 r) as [|p ps]; [congruence|].
    reflexivity.
  - destruct (startsWith sep ((c :: a) ++ b)) eqn:Hab.
    + pose proof (startsWith_straddle _ _ _ Ha Hab) as Hshort.
      pose proof (split_from_short _ Hshort) as Hs.
      rewrite split_from_unfold in Hs. rewrite Ha in Hs. rewrite Hs.
      cbn [removelast last app].
      change (startsWith sep (c :: a ++ b) = true) in Hab.
      rewrite (split_from_unfold c (a ++ b)), Hab. reflexivity.
    + assert (Hlen : length a < n) by (subst n; simpl; lia).
      rewrite (IH _ Hlen a eq_refl).
      destruct (split_from sep 0 a) as [|p [|q ps]] eqn:E.
      * elim (split_from_nonempty _ _ _ E).
      * apply split_from_single in E. subst p.
        cbn [removelast last app cons_head].
        change (startsWith sep (c :: a ++ b) = false) in Hab.
        rewrite (split_from_unfold c (a ++ b)), Hab. reflexivity.
      * reflexivity.
Qed.

End SplitFacts.

(** ** The frame decoder *)

Lemma startsWith_app_long p a b :
  length p <= length a -> startsWith p (a ++ b) = startsWith p a.
Proof.
  revert a; induction p as [|x p IH]; intros a H; [reflexivity|].
  destruct a as [|y a]; simpl in *; [lia|].
  rewrite IH by lia. reflexivity.
Qed.

Lemma split_from_no_separator sep s :
  includes sep s = false -> split_from sep 0 s = [s].
Proof.
  induction s as [|c s IH]; intros H; [reflexivity|].
  simpl in H. apply orb_false_elim in H as [H1 H2].
  simpl. rewrite H1, (IH H2). reflexivity.
Qed.

(** A piece that neither holds the separator nor opens one with its end is
    cut off where the separator after it starts. *)
Lemma split_from_first sep b r :
  sep <> [] ->
  includes sep (b ++ removelast sep) = false ->
  split_from sep 0 (b ++ sep ++ r) = b :: split_from sep 0 r.
Proof.
  intros Hsep. induction b as [|c b IH]; intros H.
  - simpl app. destruct sep as [|x p] eqn:E; [congruence|].
    rewrite <- E. rewrite E at 2. rewrite <- app_comm_cons.
    rewrite split_from_unfold by congruence.
    rewrite app_comm_cons, <- E, startsWith_app.
    rewrite skipn_app, skipn_all, PeanoNat.Nat.sub_diag. reflexivity.
  - simpl in H. apply orb_false_elim in H as [H1 H2].
    rewrite <- app_comm_cons, split_from_unfold by assumption.
    assert (Hs : startsWith sep (c :: b ++ sep ++ r) = false).
    { rewrite <- H1.
      replace (sep ++ r) with (removelast sep ++ ([last sep 0%N] ++ r)).
      - rewrite app_assoc, app_comm_cons.
        apply startsWith_app_long.
        simpl. rewrite length_app, removelast_firstn_len, length_firstn.
        destruct sep; [congruence|simpl; lia].
      - rewrite app_assoc. f_equal. symmetry.
        apply app_removelast_last. assumption. }
    rewrite Hs, (IH H2). reflexivity.
Qed.

Lemma last_app_nonempty {A : Type} (l l' : list A) (d : A) :
  l' <> [] -> last (l ++ l') d = last l' d.
Proof.
  intros Hne. induction l as [|x l IH]; [reflexivity|].
  simpl. rewrite IH. destruct (l ++ l') eqn:E; [|reflexivity].
  apply app_eq_nil in E as [_ E]. congruence.
Qed.

Lemma Array_pop_last {A : Type} (xs : list A) (d : A) :
  xs <> [] -> Array_pop xs = (Some (last xs d), removelast xs).
Proof.
  intros Hne. unfold Array_pop.
  rewrite (app_removelast_last d Hne) at 1.
  rewrite rev_app_distr. simpl. now rewrite rev_involutive.
Qed.

Lemma decode_frames_split buffer chunk :
  decode_frames buffer chunk =
  (removelast (split block_separator (buffer ++ chunk)),
   last (split block_separator (buffer ++ chunk)) []).
Proof.
  unfold decode_frames; cbv zeta.
  assert (Hne : split block_separator (buffer ++ chunk) <> [])
    by apply split_from_nonempty.
  rewrite (Array_pop_last (A:=jsstring) _ [] Hne).
  destruct (last (split block_separator (buffer ++ chunk)) []); reflexivity.
Qed.

Lemma split_app_pieces a b :
  removelast (split block_separator (a ++ b)) =
  removelast (split block_separator a)
  ++ removelast (split block_separator (last (split block_separator a) [] ++ b))
  /\ last (split block_separator (a ++ b)) [] =
     last (split block_separator (last (split block_separator a) [] ++ b)) [].
Proof.
  unfold split, block_separator.
  rewrite (split_from_app [LF; LF]) by discriminate.
  pose proof (split_from_nonempty [LF; LF] 0
                (last (split_from [LF; LF] 0 a) [] ++ b)) as Hne.
  split.
  - now apply removelast_app.
  - now apply last_app_nonempty.
Qed.

(** The piece the decoder keeps holds no separator. *)
Lemma split_last_piece s :
  split block_separator (last (split block_separator s) []) =
  [last (split block_separator s) []].
Proof.
  unfold split, block_separator.
  pose proof (split_from_app [LF; LF] ltac:(discriminate) s []) as E.
  rewrite !app_nil_r in E.
  pose proof (split_from_nonempty [LF; LF] 0 s) as Hne.
  rewrite (app_removelast_last [] Hne) in E at 1.
  now apply app_inv_head in E.
Qed.

(** The run over the texts of the chunks hands over the pieces of their
    concatenation, but the last one, which it keeps. *)
Lemma decode_run_concat texts buffer :
  split block_separator buffer = [buffer] ->
  decode_run buffer texts =
  (removelast (split block_separator (buffer ++ concat texts)),
   last (split block_separator (buffer ++ concat texts)) []).
Proof.
  revert buffer; induction texts as [|t texts IH]; intros buffer Hb.
  - cbn [decode_run concat]. rewrite app_nil_r, Hb. reflexivity.
  - cbn [decode_run concat]. rewrite decode_frames_split.
    rewrite (IH _ (split_last_piece (buffer ++ t))).
    destruct (split_app_pieces (buffer ++ t) (concat texts)) as [Hr Hl].
    rewrite app_assoc, Hr, Hl. reflexivity.
Qed.

Section FrameDecoder.

Context `{Platform}.

Lemma TextDecoder_decode_app d a b :
  TextDecoder_decode d (a ++ b) =
  let '(d1, t1) := TextDecoder_decode d a in
  let '(d2, t2) := TextDecoder_decode d1 b in
  (d2, t1 ++ t2).
Proof.
  revert d; induction a as [|x a IH]; intros d; simpl.
  - destruct (TextDecoder_decode d b); reflexivity.
  - destruct (TextDecoder_byte d x) as [d1 t1]. rewrite IH.
    destruct (TextDecoder_decode d1 a) as [d2 t2].
    destruct (TextDecoder_decode d2 b) as [d3 t3].
    now rewrite app_assoc.
Qed.

(** The texts of the chunks, put together, are the text of the bytes put
    together: the decoder does not see where a chunk ends. *)
Lemma decode_chunks_concat d chunks :
  concat (decode_chunks d chunks) = snd (TextDecoder_decode d (concat chunks)).
Proof.
  revert d; induction chunks as [|value chunks IH]; intros d; simpl.
  - reflexivity.
  - rewrite TextDecoder_decode_app.
    destruct (TextDecoder_decode d value) as [d1 t1]. simpl.
    rewrite IH. destruct (TextDecoder_decode d1 (concat chunks)); reflexivity.
Qed.

Lemma split_frame_text blocks rest :
  forallb well_formed_block blocks = true ->
  includes block_separator rest = false ->
  split block_separator (frame_text blocks rest) = blocks ++ [rest].
Proof.
  intros Hb Hr. induction blocks as [|b blocks IH]; cbn [frame_text].
  - now apply split_from_no_separator.
  - cbn [forallb] in Hb. apply andb_prop in Hb as [Hw Hb].
    change (split block_separator (b ++ block_separator ++ frame_text blocks rest))
      with (split_from block_separator 0
              (b ++ block_separator ++ frame_text blocks rest)).
    rewrite split_from_first.
    + change (split_from block_separator 0 (frame_text blocks rest))
        with (split block_separator (frame_text blocks rest)).
      rewrite (IH Hb). reflexivity.
    + discriminate.
    + unfold well_formed_block in Hw. now apply negb_true_iff in Hw.
Qed.

End FrameDecoder.

(** ** The stream loop as a function of the page *)

Ltac break_match :=
  match goal with
  | |- context [match ?x with _ => _ end] => destruct x eqn:?
  | H : context [match ?x with _ => _ end] |- _ => destruct x eqn:?
  end.

Section Loop.

Context `{Platform}.

Variable optimisticId : jsstring.

Lemma process_block_outcome eventBlock m :
  process_block optimisticId eventBlock m =
  (inr tt,
   {| cells := fst (block_outcome optimisticId eventBlock (cells m));
      effects := effects m
                 ++ snd (block_outcome optimisticId eventBlock (cells m)) |}).
Proof.
  unfold process_block, block_outcome, ret, perform.
  destruct m as [p es]; cbn [cells effects].
  destruct (is_empty (trim eventBlock));
    [cbn [fst snd]; now rewrite app_nil_r|].
  destruct (parse_block eventBlock) as [eventType dataStr].
  destruct (is_empty eventType || is_empty dataStr);
    [cbn [fst snd]; now rewrite app_nil_r|].
  cbv beta. cbn [cells effects].
  destruct (dispatch optimisticId eventType dataStr p);
    cbn [fst snd]; rewrite ?app_nil_r; reflexivity.
Qed.

Lemma for_of_outcome blocks m :
  for_of blocks (process_block optimisticId) m =
  (inr tt,
   {| cells := fst (blocks_outcome optimisticId blocks (cells m));
      effects := effects m
                 ++ snd (blocks_outcome optimisticId blocks (cells m)) |}).
Proof.
  revert m; induction blocks as [|b blocks IH]; intros m.
  - destruct m; simpl. unfold ret. now rewrite app_nil_r.
  - cbn [for_of blocks_outcome]. unfold bind at 1.
    rewrite process_block_outcome, IH. cbn [cells effects].
    destruct (block_outcome optimisticId b (cells m)) as [p1 es1].
    cbn [fst snd].
    destruct (blocks_outcome optimisticId blocks p1) as [p2 es2].
    cbn [fst snd]. now rewrite app_assoc.
Qed.

Lemma blocks_outcome_app blocks1 blocks2 p :
  blocks_outcome optimisticId (blocks1 ++ blocks2) p =
  let '(p1, es1) := blocks_outcome optimisticId blocks1 p in
  let '(p2, es2) := blocks_outcome optimisticId blocks2 p1 in
  (p2, es1 ++ es2).
Proof.
  revert p; induction blocks1 as [|b blocks1 IH]; intros p.
  - simpl. destruct (blocks_outcome optimisticId blocks2 p); reflexivity.
  - cbn [app blocks_outcome].
    destruct (block_outcome optimisticId b p) as [p1 es1]. rewrite IH.
    destruct (blocks_outcome optimisticId blocks1 p1) as [p2 es2].
    destruct (blocks_outcome optimisticId blocks2 p2) as [p3 es3].
    now rewrite app_assoc.
Qed.

(** The loop leaves the page that the frames of the stream, taken in order,
    lead to; it adds one [read] for each answer of the reader and, between
    them, what the frames add; and it ends as the stream ends. *)
Lemma read_loop_outcome chunks ending d buffer m :
  exists es,
    read_loop optimisticId d buffer chunks ending m =
    (match ending with
     | None => inr tt
     | Some err => inl err
     end,
     {| cells := fst (blocks_outcome optimisticId
                        (fst (decode_run buffer (decode_chunks d chunks)))
                        (cells m));
        effects := effects m ++ es |})
    /\ filter (fun e => negb (is_read e)) es =
       snd (blocks_outcome optimisticId
              (fst (decode_run buffer (decode_chunks d chunks))) (cells m)).
Proof.
  revert d buffer m; induction chunks as [|value chunks IH]; intros d buffer m.
  - exists [Call_read]. split; [|reflexivity].
    cbn [read_loop decode_chunks decode_run fst blocks_outcome].
    unfold bind, perform, ret, throw. destruct ending; reflexivity.
  - cbn [read_loop decode_chunks].
    destruct (TextDecoder_decode d value) as [d1 chunk].
    cbn [decode_run].
    destruct (decode_frames buffer chunk) as [events buffer1].
    unfold bind at 1. unfold perform at 1. unfold bind at 1.
    rewrite for_of_outcome. cbn [cells effects].
    match goal with
    | |- context [read_loop _ _ _ _ _ ?m1] =>
        destruct (IH d1 buffer1 m1) as (es & Hrun & Hes)
    end.
    cbn [cells effects] in Hrun, Hes.
    destruct (decode_run buffer1 (decode_chunks d1 chunks)) as [more final].
    cbn [fst] in *.
    rewrite blocks_outcome_app.
    destruct (blocks_outcome optimisticId events (cells m)) as [p1 es1] eqn:E1.
    cbn [fst snd] in *.
    destruct (blocks_outcome optimisticId more p1) as [p2 es2] eqn:E2.
    cbn [fst snd] in *.
    exists (Call_read :: es1 ++ es).
    split.
    + rewrite Hrun. rewrite <- !app_assoc. reflexivity.
    + cbn [filter is_read negb]. rewrite filter_app, Hes. f_equal.
      clear -E1. revert p1 es1 E1. generalize (cells m).
      induction events as [|b events IHe]; intros p p1 es1 E1.
      * injection E1 as <- <-. reflexivity.
      * cbn [blocks_outcome] in E1.
        destruct (block_outcome optimisticId b p) as [q fs] eqn:Eb.
        destruct (blocks_outcome optimisticId events q) as [q' fs'] eqn:Er.
        injection E1 as <- <-. rewrite filter_app, (IHe _ _ _ Er). f_equal.
        unfold block_outcome in Eb.
        repeat break_match; injection Eb as <- <-; reflexivity.
Qed.

End Loop.

(** C2. Chunk-boundary invariance of the frame decoder: when the bytes of
    the chunks, put together, decode to well-formed blocks each followed by
    the blank-line separator and then an unfinished rest, the decoder hands
    over exactly these blocks, in order, and keeps the rest, however the
    bytes are cut into chunks (a separator cut in two, empty chunks); when
    the bytes end on a separator the rest is empty and no empty block is
    handed over for it.  The loop of the handler, accordingly, leaves the
    page and adds the effects that these blocks lead to. *)
Theorem frame_decoder_chunk_invariance `{Platform}
  (chunks : list (list byte)) (blocks : list jsstring) (rest : jsstring) :
  forallb well_formed_block blocks = true ->
  includes block_separator rest = false ->
  snd (TextDecoder_decode TextDecoder_new (concat chunks))
  = frame_text blocks rest ->
  decode_run [] (decode_chunks TextDecoder_new chunks) = (blocks, rest)
  /\ forall optimisticId ending m,
       exists es,
         read_loop optimisticId TextDecoder_new [] chunks ending m =
         (match ending with
          | None => inr tt
          | Some err => inl err
          end,
          {| cells := fst (blocks_outcome optimisticId blocks (cells m));
             effects := effects m ++ es |})
         /\ filter (fun e => negb (is_read e)) es =
            snd (blocks_outcome optimisticId blocks (cells m)).
Proof.
  intros Hb Hr Htext.
  assert (E : decode_run [] (decode_chunks TextDecoder_new chunks)
              = (blocks, rest)).
  { rewrite decode_run_concat by reflexivity.
    rewrite app_nil_l, decode_chunks_concat, Htext.
    rewrite (split_frame_text _ _ Hb Hr).
    now rewrite removelast_last, last_last. }
  split; [exact E|].
  intros optimisticId ending m.
  destruct (read_loop_outcome optimisticId chunks ending TextDecoder_new [] m)
    as (es & Hrun & Hes).
  rewrite E in Hrun, Hes. now exists es.
Qed.

Lemma frame_decoder_chunk_invariance_witness :
  decode_run []
    (decode_chunks (H := Browser.platform) Browser.Utf8_new
       [Browser.bytes (lit "event: a" ++ [LF]);
        [];
        Browser.bytes ([LF] ++ lit "event: b" ++ [LF; LF])])
  = ([lit "event: a"; lit "event: b"], [])
  /\ forall optimisticId ending m,
       exists es,
         read_loop (H := Browser.platform) optimisticId Browser.Utf8_new []
           [Browser.bytes (lit "event: a" ++ [LF]);
            [];
            Browser.bytes ([LF] ++ lit "event: b" ++ [LF; LF])]
           ending m =
         (match ending with
          | None => inr tt
          | Some err => inl err
          end,
          {| cells := fst (blocks_outcome (H := Browser.platform) optimisticId
                             [lit "event: a"; lit "event: b"] (cells m));
             effects := effects m ++ es |})
         /\ filter (fun e => negb (is_read e)) es =
            snd (blocks_outcome (H := Browser.platform) optimisticId
                   [lit "event: a"; lit "event: b"] (cells m)).
Proof.
  apply (frame_decoder_chunk_invariance (H := Browser.platform));
    reflexivity.
Defined.

(** ** What the events leave alone *)

Section Quiet.

Context `{Platform}.

Variable optimisticId : jsstring.

(** No event writes the error cell, the two flags or the ref. *)
Lemma dispatch_keeps eventType dataStr p p' :
  dispatch optimisticId eventType dataStr p = inr p' ->
  sendMessageError p' = sendMessageError p
  /\ isMessageSending p' = isMessageSending p
  /\ isStreaming p' = isStreaming p
  /\ abortControllerRef p' = abortControllerRef p.
Proof.
  unfold dispatch. intros E.
  repeat break_match; try discriminate; injection E as <-;
    repeat split; reflexivity.
Qed.

Lemma block_outcome_quiet eventBlock p :
  sendMessageError (fst (block_outcome optimisticId eventBlock p))
  = sendMessageError p
  /\ forallb (fun e => negb (is_toast e))
       (snd (block_outcome optimisticId eventBlock p)) = true.
Proof.
  unfold block_outcome.
  destruct (is_empty (trim eventBlock)); [split; reflexivity|].
  destruct (parse_block eventBlock) as [eventType dataStr].
  destruct (is_empty eventType || is_empty dataStr); [split; reflexivity|].
  destruct (dispatch optimisticId eventType dataStr p) as [e|p'] eqn:E;
    [split; reflexivity|].
  split; [|reflexivity]. now apply dispatch_keeps in E.
Qed.

Lemma blocks_outcome_quiet blocks p :
  sendMessageError (fst (blocks_outcome optimisticId blocks p))
  = sendMessageError p
  /\ forallb (fun e => negb (is_toast e))
       (snd (blocks_outcome optimisticId blocks p)) = true.
Proof.
  revert p; induction blocks as [|b blocks IH]; intros p;
    [split; reflexivity|].
  cbn [blocks_outcome].
  destruct (block_outcome_quiet b p) as [E1 F1].
  destruct (block_outcome optimisticId b p) as [p1 es1]. cbn [fst snd] in *.
  destruct (IH p1) as [E2 F2].
  destruct (blocks_outcome optimisticId blocks p1) as [p2 es2].
  cbn [fst snd] in *. split; [congruence|].
  rewrite forallb_app, F1, F2. reflexivity.
Qed.

End Quiet.

Lemma no_toast_in es es' :
  filter (fun e => negb (is_read e)) es = es' ->
  forallb (fun e => negb (is_toast e)) es' = true ->
  filter is_toast es = [].
Proof.
  intros <-. induction es as [|e es IH]; [reflexivity|].
  destruct e; cbn [filter is_read is_toast negb forallb andb]; auto;
    discriminate.
Qed.

(** ** The reconciler on lists of messages *)

Lemma Message_to_js_id m :
  get (Message_to_js m) (lit "id") = inr (JStr (id m)).
Proof.
  unfold Message_to_js, get. destruct (citations m); reflexivity.
Qed.

Lemma rollback_messages ms :
  rollback (map Message_to_js ms) =
  Some (map Message_to_js (filter (fun m => negb (has_temporary_id m)) ms)).
Proof.
  induction ms as [|m ms IH]; [reflexivity|].
  cbn [map filter rollback].
  rewrite Message_to_js_id, IH. unfold has_temporary_id.
  destruct (startsWith (lit "temp-") (id m)); reflexivity.
Qed.

(** ** The handler *)

Section Send.

Context `{Platform}.

Variables (w : World) (content : jsstring).

Lemma try_block_stream chat uid token response stream m :
  getToken w = inr token ->
  fetch w = inr response ->
  ok response = true ->
  body response = Some stream ->
  try_block w chat uid content m =
  read_loop (id (optimisticUserMessage w chat uid content))
    TextDecoder_new [] (chunks stream) (ending stream)
    {| cells := started_page (optimisticUserMessage w chat uid content)
                  (cells m);
       effects := (effects m ++ [Call_getToken])
                  ++ [fetch_call w chat token content] |}.
Proof.
  intros Ht Hf Hok Hb. unfold try_block, bind, await.
  unfold setSendMessageError, setIsMessageSending, setIsStreaming,
    setStreamingMessage, setAgentStatus, set_abortControllerRef,
    setCurrentChatData, update.
  cbn [cells effects]. rewrite Ht.
  cbn [cells effects currentChatData with_abortControllerRef with_agentStatus
       with_streamingMessage with_isStreaming with_isMessageSending
       with_sendMessageError].
  unfold started_page, fetch_call.
  destruct (currentChatData (cells m)) as [prev|];
    cbn [cells effects]; rewrite Hf, Hok, Hb; reflexivity.
Qed.


Lemma finally_block_run m :
  finally_block m =
  (inr tt, {| cells := released_page (cells m); effects := effects m |}).
Proof. reflexivity. Qed.

Lemma catch_block_abort err m :
  is_AbortError err = true -> catch_block err m = (inr tt, m).
Proof. intros E. unfold catch_block. now rewrite E. Qed.

Lemma catch_block_failure err chat kept m :
  is_AbortError err = false ->
  currentChatData (cells m) = Some chat ->
  rollback (messages chat) = Some kept ->
  catch_block err m =
  (inr tt,
   {| cells := with_currentChatData (Some (with_messages chat kept))
                 (with_sendMessageError (Some (errorMessage_of err)) (cells m));
      effects := effects m ++ [toast_error (errorMessage_of err)] |}).
Proof.
  intros E Hc Hr. unfold catch_block. rewrite E.
  unfold bind, setSendMessageError, setCurrentChatData, update, perform.
  cbn [cells effects currentChatData with_sendMessageError].
  now rewrite Hc, Hr.
Qed.

Lemma handleSendMessage_can_send m :
  can_send w (cells m) = true ->
  exists chat uid,
    currentChatData (cells m) = Some chat
    /\ userId w = Some uid
    /\ handleSendMessage w content m =
       try_catch_finally (try_block w chat uid content) catch_block
         finally_block m.
Proof.
  unfold can_send, handleSendMessage.
  destruct (currentChatData (cells m)) as [chat|]; [|discriminate].
  destruct (userId w) as [[|c uid]|]; try discriminate.
  intros _. now exists chat, (c :: uid).
Qed.

Lemma handleSendMessage_cannot_send m :
  can_send w (cells m) = false ->
  handleSendMessage w content m =
  (inr tt,
   {| cells := with_sendMessageError (Some (lit "Chat or user not found"))
                 (cells m);
      effects := effects m |}).
Proof.
  unfold can_send, handleSendMessage.
  destruct (currentChatData (cells m)) as [chat|]; [|reflexivity].
  destruct (userId w) as [[|c uid]|]; try discriminate; reflexivity.
Qed.

(** C8. A send while the conversation is null or the user identity is
    absent fails at once with the precondition error: the handler only
    writes the error cell; it calls neither [getToken] nor [fetch] nor the
    reader (no effect is added), appends no optimistic message and leaves
    the streaming cells as they were. *)
Theorem send_without_chat_or_user m :
  currentChatData (cells m) = None \/ userId w = None ->
  handleSendMessage w content m =
  (inr tt,
   {| cells := with_sendMessageError (Some (lit "Chat or user not found"))
                 (cells m);
      effects := effects m |}).
Proof.
  intros Hpre. apply handleSendMessage_cannot_send. unfold can_send.
  destruct Hpre as [-> | ->]; [reflexivity|].
  destruct (currentChatData (cells m)); reflexivity.
Qed.

(** C6. Cancelling in mid-stream: when a read is rejected with an
    [AbortError], after any chunks whatever, the handler returns without
    an error set and without a toast, and the [finally] block has
    released the session: [isStreaming] and [isMessageSending] are false,
    the streaming text and the status are empty, the abort controller is
    cleared. *)
Theorem cancel_mid_stream_is_silent m token response stream message :
  can_send w (cells m) = true ->
  getToken w = inr token ->
  fetch w = inr response ->
  ok response = true ->
  body response = Some stream ->
  ending stream = Some (ErrorObj (lit "AbortError") message) ->
  exists m',
    handleSendMessage w content m = (inr tt, m')
    /\ sendMessageError (cells m') = None
    /\ filter is_toast (effects m') = filter is_toast (effects m)
    /\ isStreaming (cells m') = false
    /\ isMessageSending (cells m') = false
    /\ streamingMessage (cells m') = []
    /\ agentStatus (cells m') = JStr []
    /\ abortControllerRef (cells m') = None.
Proof.
  intros Hpre Ht Hf Hok Hb He.
  destruct (handleSendMessage_can_send m Hpre) as (chat & uid & _ & _ & ->).
  unfold try_catch_finally.
  rewrite (try_block_stream chat uid token response stream m Ht Hf Hok Hb).
  match goal with
  | |- context [read_loop ?i ?d ?b ?c ?e ?m1] =>
      destruct (read_loop_outcome i c e d b m1) as (es & -> & Hes)
  end.
  rewrite He. rewrite catch_block_abort by reflexivity.
  rewrite finally_block_run. cbn [cells effects] in Hes |- *.
  eexists; split; [reflexivity|].
  cbn [cells effects released_page sendMessageError isStreaming
       isMessageSending streamingMessage agentStatus abortControllerRef].
  match type of Hes with
  | _ = snd (blocks_outcome ?i ?bs ?p) =>
      destruct (blocks_outcome_quiet i bs p) as [Hq Hn]
  end.
  repeat split.
  - rewrite Hq. reflexivity.
  - rewrite !filter_app, (no_toast_in _ _ Hes Hn). cbn [filter is_toast].
    now rewrite !app_nil_r.
Qed.

Lemma try_block_http_error chat uid token response m :
  getToken w = inr token ->
  fetch w = inr response ->
  ok response = false ->
  try_block w chat uid content m =
  (inl (ErrorObj (lit "Error")
          (lit "HTTP error! status: " ++ decimal (status response))),
   {| cells := started_page (optimisticUserMessage w chat uid content)
                 (cells m);
      effects := (effects m ++ [Call_getToken])
                 ++ [fetch_call w chat token content] |}).
Proof.
  intros Ht Hf Hok. unfold try_block, bind, await.
  unfold setSendMessageError, setIsMessageSending, setIsStreaming,
    setStreamingMessage, setAgentStatus, set_abortControllerRef,
    setCurrentChatData, update.
  cbn [cells effects]. rewrite Ht.
  cbn [cells effects currentChatData with_abortControllerRef with_agentStatus
       with_streamingMessage with_isStreaming with_isMessageSending
       with_sendMessageError].
  unfold started_page, fetch_call.
  destruct (currentChatData (cells m)) as [prev|];
    cbn [cells effects]; rewrite Hf, Hok; reflexivity.
Qed.

Lemma try_block_no_body chat uid token response m :
  getToken w = inr token ->
  fetch w = inr response ->
  ok response = true ->
  body response = None ->
  try_block w chat uid content m =
  (inl (ErrorObj (lit "Error") (lit "No response body")),
   {| cells := started_page (optimisticUserMessage w chat uid content)
                 (cells m);
      effects := (effects m ++ [Call_getToken])
                 ++ [fetch_call w chat token content] |}).
Proof.
  intros Ht Hf Hok Hb. unfold try_block, bind, await.
  unfold setSendMessageError, setIsMessageSending, setIsStreaming,
    setStreamingMessage, setAgentStatus, set_abortControllerRef,
    setCurrentChatData, update.
  cbn [cells effects]. rewrite Ht.
  cbn [cells effects currentChatData with_abortControllerRef with_agentStatus
       with_streamingMessage with_isStreaming with_isMessageSending
       with_sendMessageError].
  unfold started_page, fetch_call.
  destruct (currentChatData (cells m)) as [prev|];
    cbn [cells effects]; rewrite Hf, Hok, Hb; reflexivity.
Qed.

(** Once the [try] block has thrown something that is no [AbortError],
    the handler surfaces its message and filters the list of that
    moment. *)
Lemma failure_after_try chat uid err m m1 chat1 ms1 :
  currentChatData (cells m) = Some chat ->
  userId w = Some uid ->
  uid <> [] ->
  try_block w chat uid content m = (inl err, m1) ->
  is_AbortError err = false ->
  currentChatData (cells m1) = Some chat1 ->
  messages chat1 = map Message_to_js ms1 ->
  handleSendMessage w content m =
  (inr tt,
   {| cells :=
        released_page
          (with_currentChatData
             (Some (with_messages chat1
                      (map Message_to_js
                         (filter (fun x => negb (has_temporary_id x)) ms1))))
             (with_sendMessageError (Some (errorMessage_of err)) (cells m1)));
      effects := effects m1 ++ [toast_error (errorMessage_of err)] |}).
Proof.
  intros Hc Hu Hne Htry Herr Hc1 Hms.
  unfold handleSendMessage. rewrite Hc, Hu.
  destruct uid as [|c uid]; [congruence|].
  unfold try_catch_finally. rewrite Htry.
  rewrite (catch_block_failure err chat1 _ m1 Herr Hc1
             (eq_trans (f_equal rollback Hms) (rollback_messages ms1))).
  rewrite finally_block_run. reflexivity.
Qed.

Lemma try_block_fetch_rejected chat uid token err m :
  getToken w = inr token ->
  fetch w = inl err ->
  try_block w chat uid content m =
  (inl err,
   {| cells := started_page (optimisticUserMessage w chat uid content)
                 (cells m);
      effects := (effects m ++ [Call_getToken])
                 ++ [fetch_call w chat token content] |}).
Proof.
  intros Ht Hf. unfold try_block, bind, await.
  unfold setSendMessageError, setIsMessageSending, setIsStreaming,
    setStreamingMessage, setAgentStatus, set_abortControllerRef,
    setCurrentChatData, update.
  cbn [cells effects]. rewrite Ht.
  cbn [cells effects currentChatData with_abortControllerRef with_agentStatus
       with_streamingMessage with_isStreaming with_isMessageSending
       with_sendMessageError].
  unfold started_page, fetch_call.
  destruct (currentChatData (cells m)) as [prev|];
    cbn [cells effects]; rewrite Hf; reflexivity.
Qed.

(** C10. On a failure path of a send (a status that is no success, a
    response without body, or a transport error other than an abort: a
    rejected [fetch] or a rejected read) the [try] block throws, and the
    rollback then filters the list of that moment by the prefix of the id:
    every message whose id starts with ["temp-"] is removed, those that
    were there before the send as well as the optimistic one, and the
    others are kept in order. *)
Theorem failure_removes_every_temporary_message m token :
  can_send w (cells m) = true ->
  getToken w = inr token ->
  (exists err, fetch w = inl err /\ is_AbortError err = false)
  \/ (exists response,
        fetch w = inr response
        /\ (ok response = false
            \/ body response = None
            \/ exists stream err,
                 body response = Some stream /\ ending stream = Some err
                 /\ is_AbortError err = false)) ->
  exists chat uid err m1,
    currentChatData (cells m) = Some chat
    /\ userId w = Some uid
    /\ try_block w chat uid content m = (inl err, m1)
    /\ is_AbortError err = false
    /\ forall chat1 ms1,
         currentChatData (cells m1) = Some chat1 ->
         messages chat1 = map Message_to_js ms1 ->
         exists m',
           handleSendMessage w content m = (inr tt, m')
           /\ currentChatData (cells m') =
              Some (with_messages chat1
                      (map Message_to_js
                         (filter (fun x => negb (startsWith (lit "temp-") (id x)))
                            ms1)))
           /\ sendMessageError (cells m') = Some (errorMessage_of err).
Proof.
  intros Hpre Ht Hfail.
  assert (Hcs : exists chat uid,
             currentChatData (cells m) = Some chat /\ userId w = Some uid
             /\ uid <> []).
  { unfold can_send in Hpre.
    destruct (currentChatData (cells m)) as [chat|]; [|discriminate].
    destruct (userId w) as [[|c uid]|]; try discriminate.
    exists chat, (c :: uid). repeat split; discriminate. }
  destruct Hcs as (chat & uid & Hc & Hu & Hne).
  assert (Hthrow : exists err m1,
             try_block w chat uid content m = (inl err, m1)
             /\ is_AbortError err = false).
  { destruct Hfail as [(err & Hf & Ha) | (response & Hf & Hfail)].
    - rewrite (try_block_fetch_rejected chat uid token err m Ht Hf). eauto.
    - destruct (ok response) eqn:Hok.
      + destruct (body response) as [stream|] eqn:Hb.
        * destruct Hfail as [Hx | [Hx | (stream' & err & Hs & He & Ha)]];
            try discriminate.
          injection Hs as <-.
          rewrite (try_block_stream chat uid token response stream m
                     Ht Hf Hok Hb).
          match goal with
          | |- context [read_loop ?i ?d ?b ?c ?e ?m0] =>
              destruct (read_loop_outcome i c e d b m0) as (es & -> & _)
          end.
          rewrite He. eauto.
        * rewrite (try_block_no_body chat uid token response m Ht Hf Hok Hb).
          eauto.
      + rewrite (try_block_http_error chat uid token response m Ht Hf Hok).
        eauto. }
  destruct Hthrow as (err & m1 & Htry & Herr).
  exists chat, uid, err, m1. repeat split; try assumption.
  intros chat1 ms1 Hc1 Hms.
  rewrite (failure_after_try chat uid err m m1 chat1 ms1
             Hc Hu Hne Htry Herr Hc1 Hms).
  eexists; split; [reflexivity|]. split; reflexivity.
Qed.

(** X13. A stream that ends without a failed read, whatever its events,
    and so also with an [error] event in it, leaves the handler without an
    error set and without a toast: only a failed call or read makes the
    handler show an error. *)
Lemma completed_stream_is_silent m token response stream :
  can_send w (cells m) = true ->
  getToken w = inr token ->
  fetch w = inr response ->
  ok response = true ->
  body response = Some stream ->
  ending stream = None ->
  exists m',
    handleSendMessage w content m = (inr tt, m')
    /\ sendMessageError (cells m') = None
    /\ filter is_toast (effects m') = filter is_toast (effects m).
Proof.
  intros Hpre Ht Hf Hok Hb He.
  destruct (handleSendMessage_can_send m Hpre) as (chat & uid & _ & _ & ->).
  unfold try_catch_finally.
  rewrite (try_block_stream chat uid token response stream m Ht Hf Hok Hb).
  match goal with
  | |- context [read_loop ?i ?d ?b ?c ?e ?m1] =>
      destruct (read_loop_outcome i c e d b m1) as (es & -> & Hes)
  end.
  rewrite He, finally_block_run. cbn [cells effects] in Hes |- *.
  eexists; split; [reflexivity|].
  cbn [cells effects released_page sendMessageError].
  match type of Hes with
  | _ = snd (blocks_outcome ?i ?bs ?p) =>
      destruct (blocks_outcome_quiet i bs p) as [Hq Hn]
  end.
  split.
  - rewrite Hq. reflexivity.
  - rewrite !filter_app, (no_toast_in _ _ Hes Hn). cbn [filter is_toast].
    now rewrite !app_nil_r.
Qed.

(** X14. An abort that reaches the handler from [fetch], before any
    read, ends the send as silently: no error is set and no toast is
    shown, the session is released, and the optimistic message is left in
    the list (a cancellation rolls nothing back). *)
Lemma cancel_before_stream_is_silent m chat token message :
  can_send w (cells m) = true ->
  currentChatData (cells m) = Some chat ->
  getToken w = inr token ->
  fetch w = inl (ErrorObj (lit "AbortError") message) ->
  exists uid,
    userId w = Some uid
    /\ handleSendMessage w content m =
       (inr tt,
        {| cells :=
             released_page
               (started_page (optimisticUserMessage w chat uid content)
                  (cells m));
           effects := (effects m ++ [Call_getToken])
                      ++ [fetch_call w chat token content] |}).
Proof.
  intros Hpre Hc Ht Hf.
  destruct (handleSendMessage_can_send m Hpre) as (chat' & uid & Hc' & Hu & ->).
  assert (chat' = chat) by congruence. subst chat'.
  exists uid. split; [exact Hu|].
  unfold try_catch_finally.
  rewrite (try_block_fetch_rejected chat uid token _ m Ht Hf).
  rewrite catch_block_abort by reflexivity.
  now rewrite finally_block_run.
Qed.

End Send.

(** ** Single events *)

Section Events.

Context `{Platform}.

Variable optimisticId : jsstring.

(** C5. A block whose [data:] payload is no valid JSON produces no event
    and does not throw: [process_block] returns normally, the page (the
    conversation and the streaming text with it) is as before, the failure
    is logged by one [console.warn] and nothing else (a block that is
    skipped before the payload is read does not even log), and the loop
    goes on with the blocks that follow. *)
Theorem invalid_json_is_logged_and_skipped eventBlock eventType dataStr m :
  parse_block eventBlock = (eventType, dataStr) ->
  JSON_parse dataStr = None ->
  let m' :=
    {| cells := cells m;
       effects := effects m
                  ++ (if is_empty (trim eventBlock)
                         || is_empty eventType || is_empty dataStr
                      then []
                      else [console_warn SyntaxError]) |} in
  process_block optimisticId eventBlock m = (inr tt, m')
  /\ forall blocks,
       for_of (eventBlock :: blocks) (process_block optimisticId) m =
       for_of blocks (process_block optimisticId) m'.
Proof.
  intros Hparse Hjson m'.
  assert (E : process_block optimisticId eventBlock m = (inr tt, m')).
  { subst m'. rewrite process_block_outcome. unfold block_outcome.
    rewrite Hparse.
    destruct (is_empty (trim eventBlock)); [reflexivity|].
    rewrite orb_false_l.
    destruct (is_empty eventType || is_empty dataStr); [reflexivity|].
    unfold dispatch. rewrite Hjson. reflexivity. }
  split; [exact E|].
  intros blocks. cbn [for_of]. unfold bind. now rewrite E.
Qed.

(** C9. A [done] event whose payload lacks [userMessage] or [aiMessage]
    leaves everything as it is: the optimistic message is not removed and
    nothing is appended. *)
Theorem done_without_both_messages_changes_nothing eventBlock dataStr data m :
  parse_block eventBlock = (lit "done", dataStr) ->
  JSON_parse dataStr = Some data ->
  get data (lit "userMessage") = inr JUndefined
  \/ get data (lit "aiMessage") = inr JUndefined ->
  process_block optimisticId eventBlock m = (inr tt, m).
Proof.
  intros Hparse Hjson Hlack.
  rewrite process_block_outcome. unfold block_outcome. rewrite Hparse.
  destruct m as [p es]. cbn [cells effects].
  destruct (is_empty (trim eventBlock));
    [cbn [fst snd]; now rewrite app_nil_r|].
  destruct (is_empty (lit "done") || is_empty dataStr);
    [cbn [fst snd]; now rewrite app_nil_r|].
  assert (E : dispatch optimisticId (lit "done") dataStr p = inr p).
  { unfold dispatch. rewrite Hjson.
    change (jsstring_eqb (lit "done") (lit "token")) with false.
    change (jsstring_eqb (lit "done") (lit "status")) with false.
    change (jsstring_eqb (lit "done") (lit "error")) with false.
    change (jsstring_eqb (lit "done") (lit "done")) with true.
    cbv iota.
    destruct (currentChatData p) as [prev|]; [|reflexivity].
    destruct Hlack as [Hu | Ha].
    - assert (Ha : exists v, get data (lit "aiMessage") = inr v).
      { unfold get in *. destruct data; try discriminate; eauto.
        destruct (own_property (lit "aiMessage") props); eauto. }
      destruct Ha as [v ->]. rewrite Hu.
      destruct (ToBoolean v); reflexivity.
    - rewrite Ha. reflexivity. }
  rewrite E. cbn [fst snd]. now rewrite app_nil_r.
Qed.

(** An [error] event never gets out of the inner [try]. *)
Lemma error_event_is_caught dataStr p :
  exists e, dispatch optimisticId (lit "error") dataStr p = inl e.
Proof.
  unfold dispatch.
  change (jsstring_eqb (lit "error") (lit "token")) with false.
  change (jsstring_eqb (lit "error") (lit "status")) with false.
  change (jsstring_eqb (lit "error") (lit "error")) with true.
  cbv iota.
  repeat break_match; eauto.
Qed.

End Events.

(** ** Runs *)

Lemma invalid_json_is_logged_and_skipped_witness :
  process_block (H := Browser.platform) (lit "temp-1")
    (lit "event: token" ++ [LF] ++ lit "data: {oops")
    (Scenario.idle (Some Scenario.chat))
  = (inr tt,
     {| cells := Scenario.idle_page (Some Scenario.chat);
        effects := [console_warn SyntaxError] |})
  /\ forall blocks,
       for_of ((lit "event: token" ++ [LF] ++ lit "data: {oops") :: blocks)
         (process_block (H := Browser.platform) (lit "temp-1"))
         (Scenario.idle (Some Scenario.chat))
       = for_of blocks (process_block (H := Browser.platform) (lit "temp-1"))
           {| cells := Scenario.idle_page (Some Scenario.chat);
              effects := [console_warn SyntaxError] |}.
Proof.
  exact (@invalid_json_is_logged_and_skipped Browser.platform (lit "temp-1")
           (lit "event: token" ++ [LF] ++ lit "data: {oops")
           (lit "token") (lit "{oops")
           (Scenario.idle (Some Scenario.chat)) eq_refl eq_refl).
Defined.

Lemma done_without_both_messages_changes_nothing_witness :
  process_block (H := Browser.platform) (lit "temp-1700000000000")
    (lit "event: done" ++ [LF] ++ jlit "data: {'userMessage':{'id':'u1'}}")
    (Scenario.idle
       (Some (with_messages Scenario.chat [Message_to_js Scenario.hello])))
  = (inr tt,
     Scenario.idle
       (Some (with_messages Scenario.chat [Message_to_js Scenario.hello]))).
Proof.
  apply (@done_without_both_messages_changes_nothing Browser.platform
           (lit "temp-1700000000000") _ (jlit "{'userMessage':{'id':'u1'}}")
           (JObj [(lit "userMessage", JObj [(lit "id", JStr (lit "u1"))])]));
    [reflexivity | reflexivity | right; reflexivity].
Defined.

Lemma send_without_chat_or_user_witness :
  handleSendMessage (H := Browser.platform)
    (Scenario.world None (Scenario.streaming [] None)) (lit "Hello")
    (Scenario.idle (Some Scenario.chat))
  = (inr tt,
     {| cells := with_sendMessageError (Some (lit "Chat or user not found"))
                   (Scenario.idle_page (Some Scenario.chat));
        effects := [] |}).
Proof.
  apply (@send_without_chat_or_user Browser.platform
           (Scenario.world None (Scenario.streaming [] None)) (lit "Hello")
           (Scenario.idle (Some Scenario.chat))).
  right; reflexivity.
Defined.

Lemma cancel_mid_stream_is_silent_witness :
  exists m',
    handleSendMessage (H := Browser.platform)
      (Scenario.world (Some (lit "user_1"))
         (Scenario.streaming
            [lit "event: token" ++ [LF] ++ jlit "data: {'content':'Hi'}"
             ++ [LF; LF]]
            (Some (ErrorObj (lit "AbortError")
                     (lit "The user aborted a request.")))))
      (lit "Hello") (Scenario.idle (Some Scenario.chat))
    = (inr tt, m')
    /\ sendMessageError (cells m') = None
    /\ filter is_toast (effects m') = []
    /\ isStreaming (cells m') = false
    /\ isMessageSending (cells m') = false
    /\ streamingMessage (cells m') = []
    /\ agentStatus (cells m') = JStr []
    /\ abortControllerRef (cells m') = None.
Proof.
  eapply (@cancel_mid_stream_is_silent Browser.platform); reflexivity.
Defined.

Lemma failure_removes_every_temporary_message_witness :
  exists chat uid err m1,
    currentChatData
      (cells (Scenario.idle
                (Some (with_messages Scenario.chat
                         [Message_to_js (Scenario.persisted "m0" assistant "Hi");
                          Message_to_js Scenario.stale]))))
    = Some chat
    /\ userId (Scenario.world (Some (lit "user_1")) (Scenario.failing 500))
       = Some uid
    /\ try_block (H := Browser.platform)
         (Scenario.world (Some (lit "user_1")) (Scenario.failing 500))
         chat uid (lit "Hello")
         (Scenario.idle
            (Some (with_messages Scenario.chat
                     [Message_to_js (Scenario.persisted "m0" assistant "Hi");
                      Message_to_js Scenario.stale])))
       = (inl err, m1)
    /\ is_AbortError err = false
    /\ forall chat1 ms1,
         currentChatData (cells m1) = Some chat1 ->
         messages chat1 = map Message_to_js ms1 ->
         exists m',
           handleSendMessage (H := Browser.platform)
             (Scenario.world (Some (lit "user_1")) (Scenario.failing 500))
             (lit "Hello")
             (Scenario.idle
                (Some (with_messages Scenario.chat
                         [Message_to_js (Scenario.persisted "m0" assistant "Hi");
                          Message_to_js Scenario.stale])))
           = (inr tt, m')
           /\ currentChatData (cells m') =
              Some (with_messages chat1
                      (map Message_to_js
                         (filter (fun x => negb (startsWith (lit "temp-") (id x)))
                            ms1)))
           /\ sendMessageError (cells m') = Some (errorMessage_of err).
Proof.
  eapply (@failure_removes_every_temporary_message Browser.platform);
    [reflexivity | reflexivity
    | right; eexists; split; [reflexivity | left; reflexivity]].
Defined.

(** The same run, evaluated: of the three messages in the list when the
    request fails (one persisted, one temporary from before, and the
    optimistic one) only the persisted one is left. *)
Example failure_run :
  handleSendMessage (H := Browser.platform)
    (Scenario.world (Some (lit "user_1")) (Scenario.failing 500))
    (lit "Hello")
    (Scenario.idle
       (Some (with_messages Scenario.chat
                [Message_to_js (Scenario.persisted "m0" assistant "Hi");
                 Message_to_js Scenario.stale])))
  = (inr tt,
     {| cells :=
          with_sendMessageError (Some (lit "HTTP error! status: 500"))
            (Scenario.idle_page
               (Some (with_messages Scenario.chat
                        [Message_to_js
                           (Scenario.persisted "m0" assistant "Hi")])));
        effects := [Call_getToken; Scenario.the_fetch;
                    toast_error (lit "HTTP error! status: 500")] |}).
Proof. vm_compute. reflexivity. Qed.

(** C1. The scenario of the specification on the code: the stream yields
    an [error] event with the message ["rate limited"] and then ends.  The
    [Error] the dispatch throws is caught by the inner [catch] and logged;
    the loop goes on to the next read; no error is surfaced, no toast is
    shown, and the optimistic message stays in the list. *)
Theorem error_event_is_swallowed :
  handleSendMessage (H := Browser.platform)
    (Scenario.world (Some (lit "user_1"))
       (Scenario.streaming [Scenario.rate_limited] None))
    (lit "Hello") (Scenario.idle (Some Scenario.chat))
  = (inr tt,
     {| cells :=
          Scenario.idle_page
            (Some (with_messages Scenario.chat [Message_to_js Scenario.hello]));
        effects := [Call_getToken; Scenario.the_fetch; Call_read;
                    console_warn (ServerError (lit "rate limited"));
                    Call_read] |}).
Proof. vm_compute. reflexivity. Qed.

(** ** The reconciler *)

Lemma jsstring_eqb_eq a b : jsstring_eqb a b = true <-> a = b.
Proof.
  revert b; induction a as [|x a IH]; intros [|y b]; simpl;
    try (split; [discriminate|congruence]); [tauto|].
  rewrite andb_true_iff, N.eqb_eq, IH. split.
  - intros [-> ->]; reflexivity.
  - intros E; injection E; auto.
Qed.

Lemma jsstring_eqb_refl a : jsstring_eqb a a = true.
Proof. now apply jsstring_eqb_eq. Qed.

Lemma Message_to_js_same_id x y :
  Message_to_js x = Message_to_js y -> id x = id y.
Proof.
  intros E. pose proof (Message_to_js_id x) as Ix.
  rewrite E, Message_to_js_id in Ix. congruence.
Qed.

Lemma without_id_messages i ms :
  without_id i (map Message_to_js ms) =
  Some (map Message_to_js
          (filter (fun m => negb (jsstring_eqb (id m) i)) ms)).
Proof.
  induction ms as [|m ms IH]; [reflexivity|].
  cbn [map filter without_id].
  rewrite Message_to_js_id, IH. cbn [differs_from_string].
  destruct (jsstring_eqb (id m) i); reflexivity.
Qed.

Lemma filter_twice {A : Type} (f : A -> bool) (l : list A) :
  filter f (filter f l) = filter f l.
Proof.
  induction l as [|x l IH]; [reflexivity|].
  simpl. destruct (f x) eqn:E; simpl; rewrite ?E, IH; reflexivity.
Qed.

Lemma not_in_filtered (f : Message -> bool) m ms :
  (forall x, id x = id m -> f x = false) ->
  ~ In (Message_to_js m) (map Message_to_js (filter f ms)).
Proof.
  intros Hf Hin. apply in_map_iff in Hin as (x & E & Hx).
  apply filter_In in Hx as [_ Hx].
  rewrite (Hf x (Message_to_js_same_id _ _ E)) in Hx. discriminate.
Qed.

(** C3, as the code has it. After [appendOptimistic m] and then
    [finalize u a], where [u] and [a] do not carry the id of [m], the list
    no longer contains [m] and ends with [u] immediately followed by [a];
    a second [finalize] with the same arguments does not fail, and it
    appends [u] and [a] once more. *)
Theorem finalize_replaces_optimistic ms m u a :
  id u <> id m ->
  id a <> id m ->
  exists l,
    finalize (id m) (Message_to_js u) (Message_to_js a)
      (appendOptimistic m (map Message_to_js ms)) = Some l
    /\ l = map Message_to_js
             (filter (fun x => negb (jsstring_eqb (id x) (id m))) ms)
           ++ [Message_to_js u; Message_to_js a]
    /\ ~ In (Message_to_js m) l
    /\ finalize (id m) (Message_to_js u) (Message_to_js a) l
       = Some (l ++ [Message_to_js u; Message_to_js a]).
Proof.
  intros Hu Ha.
  set (keep := fun x : Message => negb (jsstring_eqb (id x) (id m))).
  assert (Ku : keep u = true).
  { unfold keep. destruct (jsstring_eqb (id u) (id m)) eqn:E; [|reflexivity].
    apply jsstring_eqb_eq in E. contradiction. }
  assert (Ka : keep a = true).
  { unfold keep. destruct (jsstring_eqb (id a) (id m)) eqn:E; [|reflexivity].
    apply jsstring_eqb_eq in E. contradiction. }
  assert (Km : keep m = false).
  { unfold keep. now rewrite jsstring_eqb_refl. }
  exists (map Message_to_js (filter keep ms)
          ++ [Message_to_js u; Message_to_js a]).
  repeat split.
  - unfold finalize, appendOptimistic.
    change [Message_to_js m] with (map Message_to_js [m]).
    rewrite <- map_app, without_id_messages. fold keep.
    rewrite filter_app. cbn [filter]. rewrite Km, app_nil_r. reflexivity.
  - intros Hin. apply in_app_or in Hin as [Hin | Hin].
    + revert Hin. apply not_in_filtered.
      intros x E. unfold keep. rewrite E, jsstring_eqb_refl. reflexivity.
    + destruct Hin as [E | [E | []]];
        apply Message_to_js_same_id in E; congruence.
  - unfold finalize.
    change [Message_to_js u; Message_to_js a]
      with (map Message_to_js [u; a]) at 1.
    rewrite <- map_app, without_id_messages. fold keep.
    rewrite filter_app, filter_twice. cbn [filter]. rewrite Ku, Ka.
    rewrite map_app. reflexivity.
Qed.

(** C7. After [appendOptimistic m], for the optimistic message [m] the
    handler makes, and then the rollback, the list no longer contains [m];
    a second rollback leaves the list as it is. *)
Theorem rollback_removes_optimistic w chat uid content ms :
  exists l,
    rollback
      (appendOptimistic (optimisticUserMessage w chat uid content)
         (map Message_to_js ms)) = Some l
    /\ ~ In (Message_to_js (optimisticUserMessage w chat uid content)) l
    /\ rollback l = Some l.
Proof.
  set (m := optimisticUserMessage w chat uid content).
  assert (Tm : has_temporary_id m = true) by apply startsWith_app.
  exists (map Message_to_js (filter (fun x => negb (has_temporary_id x)) ms)).
  repeat split.
  - unfold appendOptimistic.
    change [Message_to_js m] with (map Message_to_js [m]).
    rewrite <- map_app, rollback_messages, filter_app. cbn [filter].
    rewrite Tm, app_nil_r. reflexivity.
  - apply not_in_filtered. intros x E. unfold has_temporary_id in *.
    rewrite E, Tm. reflexivity.
  - rewrite rollback_messages, filter_twice. reflexivity.
Qed.

Lemma finalize_replaces_optimistic_witness :
  exists l,
    finalize (id Scenario.hello)
      (Message_to_js (Scenario.persisted "u1" user "Hello"))
      (Message_to_js (Scenario.persisted "a1" assistant "Hi there"))
      (appendOptimistic Scenario.hello
         (map Message_to_js [Scenario.persisted "m0" assistant "Hi"]))
    = Some l
    /\ l = map Message_to_js
             (filter (fun x => negb (jsstring_eqb (id x) (id Scenario.hello)))
                [Scenario.persisted "m0" assistant "Hi"])
           ++ [Message_to_js (Scenario.persisted "u1" user "Hello");
               Message_to_js (Scenario.persisted "a1" assistant "Hi there")]
    /\ ~ In (Message_to_js Scenario.hello) l
    /\ finalize (id Scenario.hello)
         (Message_to_js (Scenario.persisted "u1" user "Hello"))
         (Message_to_js (Scenario.persisted "a1" assistant "Hi there")) l
       = Some (l ++ [Message_to_js (Scenario.persisted "u1" user "Hello");
                     Message_to_js
                       (Scenario.persisted "a1" assistant "Hi there")]).
Proof.
  apply (finalize_replaces_optimistic
           [Scenario.persisted "m0" assistant "Hi"] Scenario.hello
           (Scenario.persisted "u1" user "Hello")
           (Scenario.persisted "a1" assistant "Hi there"));
    discriminate.
Defined.

(** C3, as the specification has it, fails on the code: the second
    [finalize] finds no message with the optimistic id to remove, and
    appends the pair again. *)
Lemma finalize_twice_is_no_noop :
  finalize (id Scenario.hello)
    (Message_to_js (Scenario.persisted "u1" user "Hello"))
    (Message_to_js (Scenario.persisted "a1" assistant "Hi there"))
    (appendOptimistic Scenario.hello [])
  = Some [Message_to_js (Scenario.persisted "u1" user "Hello");
          Message_to_js (Scenario.persisted "a1" assistant "Hi there")]
  /\ finalize (id Scenario.hello)
       (Message_to_js (Scenario.persisted "u1" user "Hello"))
       (Message_to_js (Scenario.persisted "a1" assistant "Hi there"))
       [Message_to_js (Scenario.persisted "u1" user "Hello");
        Message_to_js (Scenario.persisted "a1" assistant "Hi there")]
     = Some [Message_to_js (Scenario.persisted "u1" user "Hello");
             Message_to_js (Scenario.persisted "a1" assistant "Hi there");
             Message_to_js (Scenario.persisted "u1" user "Hello");
             Message_to_js (Scenario.persisted "a1" assistant "Hi there")]
  /\ finalize (id Scenario.hello)
       (Message_to_js (Scenario.persisted "u1" user "Hello"))
       (Message_to_js (Scenario.persisted "a1" assistant "Hi there"))
       [Message_to_js (Scenario.persisted "u1" user "Hello");
        Message_to_js (Scenario.persisted "a1" assistant "Hi there")]
     <> Some [Message_to_js (Scenario.persisted "u1" user "Hello");
              Message_to_js (Scenario.persisted "a1" assistant "Hi there")].
Proof.
  split; [reflexivity|]. split; [reflexivity|].
  vm_compute. discriminate.
Qed.

(** ** The event parser *)

Lemma event_line_is_no_data_line line :
  startsWith (lit "event: ") line = true ->
  startsWith (lit "data: ") line = false.
Proof.
  destruct line as [|c line]; [discriminate|].
  change (lit "data: ") with (100%N :: lit "ata: ").
  change (lit "event: ") with (101%N :: lit "vent: ").
  cbn [startsWith]. intros E. apply andb_prop in E as [E _].
  apply N.eqb_eq in E. subst c. reflexivity.
Qed.

(** C4, as the code has it. Of the lines of a block that start with
    ["event: "] the last one gives the event type, and of those that start
    with ["data: "] the last one gives the payload; without such a line
    the type, or the payload, is empty. *)
Theorem parser_honors_last_lines eventBlock :
  parse_block eventBlock =
  (match last_line (lit "event: ") (split [LF] eventBlock) with
   | Some line => trim (slice 7 line)
   | None => []
   end,
   match last_line (lit "data: ") (split [LF] eventBlock) with
   | Some line => slice 6 line
   | None => []
   end).
Proof.
  unfold parse_block. cbv zeta.
  induction (split [LF] eventBlock) as [|line lines IH] using rev_ind;
    [reflexivity|].
  rewrite fold_left_app, IH. cbn [fold_left]. unfold last_line.
  rewrite !rev_app_distr. cbn [rev app find]. unfold scan_line.
  destruct (startsWith (lit "event: ") line) eqn:E.
  - now rewrite (event_line_is_no_data_line _ E).
  - destruct (startsWith (lit "data: ") line); reflexivity.
Qed.

(** C4, as the specification has it, fails on the code: in a block with
    two event-type lines and two data lines the parser returns the second
    of each, and the event that is dispatched is the [status] one. *)
Lemma parser_honors_first_lines_counterexample :
  parse_block
    (lit "event: token" ++ [LF] ++ jlit "data: {'content':'a'}" ++ [LF]
     ++ lit "event: status" ++ [LF] ++ jlit "data: {'status':'b'}")
  = (lit "status", jlit "{'status':'b'}")
  /\ parse_block
       (lit "event: token" ++ [LF] ++ jlit "data: {'content':'a'}" ++ [LF]
        ++ lit "event: status" ++ [LF] ++ jlit "data: {'status':'b'}")
     <> (lit "token", jlit "{'content':'a'}")
  /\ block_outcome (H := Browser.platform) (lit "temp-1")
       (lit "event: token" ++ [LF] ++ jlit "data: {'content':'a'}" ++ [LF]
        ++ lit "event: status" ++ [LF] ++ jlit "data: {'status':'b'}")
       (Scenario.idle_page (Some Scenario.chat))
     = (with_agentStatus (JStr (lit "b"))
          (Scenario.idle_page (Some Scenario.chat)), []).
Proof.
  split; [reflexivity|]. split; [|reflexivity].
  vm_compute. discriminate.
Qed.

(** ** The send that succeeds

    The bytes of [status], [token], [token] and [done] events, cut into
    chunks in the middle of a line, of a separator and of a payload: the
    list ends with the two persisted messages, no temporary id is left,
    and the session is released. *)
Example successful_run :
  handleSendMessage (H := Browser.platform)
    (Scenario.world (Some (lit "user_1"))
       (Scenario.streaming
          [lit "event: sta";
           lit "tus" ++ [LF] ++ jlit "data: {'status':'thinking'}" ++ [LF];
           [LF] ++ lit "event: token" ++ [LF] ++ jlit "data: {'content':'Hi'}"
           ++ [LF; LF] ++ lit "event: token" ++ [LF] ++ jlit "data: {'cont";
           [];
           jlit "ent':' there'}" ++ [LF; LF] ++ lit "event: done" ++ [LF]
           ++ jlit "data: {'userMessage':{'id':'u1'},"
           ++ jlit "'aiMessage':{'id':'a1','content':'Hi there'}}" ++ [LF; LF]]
          None))
    (lit "Hello") (Scenario.idle (Some Scenario.chat))
  = (inr tt,
     {| cells :=
          Scenario.idle_page
            (Some (with_messages Scenario.chat
                     [JObj [(lit "id", JStr (lit "u1"))];
                      JObj [(lit "id", JStr (lit "a1"));
                            (lit "content", JStr (lit "Hi there"))]]));
        effects := [Call_getToken; Scenario.the_fetch;
                    Call_read; Call_read; Call_read; Call_read; Call_read;
                    Call_read] |}).
Proof. vm_compute. reflexivity. Qed.

(** * Further properties *)

(** ** The frame decoder on any text *)

Lemma removelast_cons {A : Type} (x : A) (l : list A) :
  l <> [] -> removelast (x :: l) = x :: removelast l.
Proof. destruct l; [congruence|reflexivity]. Qed.

Lemma last_cons {A : Type} (x : A) (l : list A) (d : A) :
  l <> [] -> last (x :: l) d = last l d.
Proof. destruct l; [congruence|reflexivity]. Qed.

(** Putting the separator back between the pieces gives the text back. *)
Lemma frame_text_split s :
  frame_text (removelast (split block_separator s))
    (last (split block_separator s) []) = s.
Proof.
  unfold split, block_separator.
  remember (length s) as n eqn:Hn. revert s Hn.
  induction n as [n IH] using (well_founded_induction Wf_nat.lt_wf).
  intros [|c s] Hn; [reflexivity|].
  rewrite split_from_unfold by discriminate.
  destruct (startsWith [LF; LF] (c :: s)) eqn:E.
  - destruct (startsWith_prefix _ _ E) as [r Hr]. rewrite Hr.
    change (skipn (length [LF; LF]) ([LF; LF] ++ r)) with r.
    pose proof (split_from_nonempty [LF; LF] 0 r) as Hne.
    rewrite removelast_cons, last_cons by assumption.
    cbn [frame_text]. rewrite (IH (length r)); [reflexivity| |reflexivity].
    subst n. rewrite Hr. simpl. lia.
  - assert (Hs : frame_text (removelast (split_from [LF; LF] 0 s))
                   (last (split_from [LF; LF] 0 s) []) = s).
    { apply (IH (length s)); [subst n; simpl; lia|reflexivity]. }
    destruct (split_from [LF; LF] 0 s) as [|p [|q ps]] eqn:Es.
    + elim (split_from_nonempty _ _ _ Es).
    + cbn in Hs |- *. now rewrite Hs.
    + cbn [cons_head].
      rewrite removelast_cons, last_cons by discriminate.
      rewrite removelast_cons, last_cons in Hs by discriminate.
      cbn [frame_text] in Hs |- *. rewrite <- app_comm_cons. now f_equal.
Qed.

(** X1. The frame decoder loses nothing and repeats nothing: however the
    bytes come in chunks, the blocks handed over, each followed by the
    separator, and then the buffer that is left, are the decoded text of
    all the bytes. *)
Theorem decoder_loses_nothing `{Platform} (chunks : list (list byte)) :
  frame_text
    (fst (decode_run [] (decode_chunks TextDecoder_new chunks)))
    (snd (decode_run [] (decode_chunks TextDecoder_new chunks)))
  = snd (TextDecoder_decode TextDecoder_new (concat chunks)).
Proof.
  rewrite decode_run_concat by reflexivity.
  cbn [fst snd app]. rewrite frame_text_split.
  apply decode_chunks_concat.
Qed.

Lemma split_from_head sep s p ps :
  split_from sep 0 s = p :: ps -> exists r, s = p ++ r.
Proof.
  revert p ps; induction s as [|c s IH]; intros p ps E.
  - injection E as <- _. now exists [].
  - simpl in E. destruct (startsWith sep (c :: s)).
    + injection E as <- _. now exists (c :: s).
    + destruct (split_from sep 0 s) as [|p' ps'] eqn:Es.
      * elim (split_from_nonempty _ _ _ Es).
      * injection E as <- _. destruct (IH _ _ eq_refl) as [r ->].
        now exists r.
Qed.

(** No piece of a split holds the separator. *)
Lemma split_from_pieces sep s :
  sep <> [] ->
  forallb (fun p => negb (includes sep p)) (split_from sep 0 s) = true.
Proof.
  intros Hsep.
  assert (Hnil : includes sep [] = false).
  { destruct sep; [congruence|reflexivity]. }
  remember (length s) as n eqn:Hn. revert s Hn.
  induction n as [n IH] using (well_founded_induction Wf_nat.lt_wf).
  intros [|c s] Hn.
  - cbn [split_from forallb]. now rewrite Hnil.
  - rewrite split_from_unfold by assumption.
    destruct (startsWith sep (c :: s)) eqn:E.
    + cbn [forallb]. rewrite Hnil. cbn [negb andb].
      apply (IH (length (skipn (length sep) (c :: s)))); [|reflexivity].
      subst n. rewrite length_skipn. destruct sep; [congruence|simpl; lia].
    + assert (Hs : forallb (fun p => negb (includes sep p))
                     (split_from sep 0 s) = true).
      { apply (IH (length s)); [subst n; simpl; lia|reflexivity]. }
      destruct (split_from sep 0 s) as [|p ps] eqn:Es.
      * elim (split_from_nonempty _ _ _ Es).
      * cbn [cons_head forallb] in Hs |- *.
        apply andb_prop in Hs as [Hp Hps]. rewrite Hps, andb_true_r.
        cbn [includes]. apply negb_true_iff in Hp. rewrite Hp, orb_false_r.
        destruct (startsWith sep (c :: p)) eqn:Ep; [|reflexivity].
        destruct (split_from_head _ _ _ _ Es) as [r ->].
        pose proof (startsWith_app_l sep (c :: p) r Ep) as E'.
        change ((c :: p) ++ r) with (c :: p ++ r) in E'. congruence.
Qed.

Lemma forallb_removelast {A : Type} (f : A -> bool) (l : list A) :
  forallb f l = true -> forallb f (removelast l) = true.
Proof.
  induction l as [|x l IH]; [reflexivity|].
  cbn [forallb]. intros E. apply andb_prop in E as [Ex El].
  destruct l; [reflexivity|]. cbn [removelast forallb].
  rewrite Ex. now apply IH.
Qed.

Lemma forallb_last {A : Type} (f : A -> bool) (l : list A) (d : A) :
  l <> [] -> forallb f l = true -> f (last l d) = true.
Proof.
  induction l as [|x l IH]; [congruence|].
  cbn [forallb]. intros _ E. apply andb_prop in E as [Ex El].
  destruct l; [exact Ex|]. now apply IH.
Qed.

(** X2. No block the decoder hands over holds a blank-line separator, and
    neither does the buffer it keeps between two reads. *)
Theorem decoder_cuts_at_every_separator (texts : list jsstring) :
  forallb (fun b => negb (includes block_separator b))
    (fst (decode_run [] texts)) = true
  /\ includes block_separator (snd (decode_run [] texts)) = false.
Proof.
  rewrite decode_run_concat by reflexivity. cbn [fst snd app].
  pose proof (split_from_pieces block_separator (concat texts)
                ltac:(discriminate)) as Hp.
  change (split_from block_separator 0 (concat texts))
    with (split block_separator (concat texts)) in Hp.
  split.
  - now apply forallb_removelast.
  - apply negb_true_iff.
    apply (forallb_last (fun p => negb (includes block_separator p)));
      [apply split_from_nonempty|exact Hp].
Qed.

Lemma only_reads es :
  filter (fun e => negb (is_read e)) es = [] -> forallb is_read es = true.
Proof.
  induction es as [|e es IH]; [reflexivity|].
  cbn [filter forallb]. destruct (is_read e); cbn [negb andb];
    [exact IH|discriminate].
Qed.

(** X3. What comes after the last separator is never dispatched: a stream
    whose text holds no blank line, whatever events are written in it and
    however it ends, leaves the page as it was and adds nothing but the
    reads.  So a last event that is not followed by a blank line is
    lost. *)
Theorem unterminated_frame_is_dropped `{Platform}
  (optimisticId : jsstring) (chunks : list (list byte))
  (ending : option Thrown) (m : Machine) :
  includes block_separator
    (snd (TextDecoder_decode TextDecoder_new (concat chunks))) = false ->
  exists es,
    read_loop optimisticId TextDecoder_new [] chunks ending m =
    (match ending with
     | None => inr tt
     | Some err => inl err
     end,
     {| cells := cells m; effects := effects m ++ es |})
    /\ forallb is_read es = true.
Proof.
  intros Hno.
  destruct (read_loop_outcome optimisticId chunks ending TextDecoder_new [] m)
    as (es & Hrun & Hes).
  rewrite decode_run_concat in Hrun, Hes by reflexivity.
  rewrite app_nil_l, decode_chunks_concat in Hrun, Hes.
  unfold split, block_separator in Hrun, Hes. unfold block_separator in Hno.
  rewrite (split_from_no_separator _ _ Hno) in Hrun, Hes.
  cbn [fst removelast blocks_outcome snd] in Hrun, Hes.
  exists es. split; [exact Hrun|now apply only_reads].
Qed.

Lemma unterminated_frame_is_dropped_witness :
  exists es,
    read_loop (H := Browser.platform) (lit "temp-1700000000000")
      Browser.Utf8_new []
      [Browser.bytes
         (lit "event: done" ++ [LF]
          ++ jlit "data: {'userMessage':{'id':'u1'},'aiMessage':{'id':'a1'}}"
          ++ [LF])]
      None
      (Scenario.idle
         (Some (with_messages Scenario.chat [Message_to_js Scenario.hello])))
    = (inr tt,
       {| cells := Scenario.idle_page
                     (Some (with_messages Scenario.chat
                              [Message_to_js Scenario.hello]));
          effects := [] ++ es |})
    /\ forallb is_read es = true.
Proof.
  apply (unterminated_frame_is_dropped (H := Browser.platform)).
  reflexivity.
Defined.

(** ** The event parser and the dispatch *)

Lemma scan_lines_keep_eventType lines eventType dataStr :
  existsb (startsWith (lit "event: ")) lines = false ->
  fst (fold_left scan_line lines (eventType, dataStr)) = eventType.
Proof.
  revert eventType dataStr; induction lines as [|l lines IH];
    intros eventType dataStr Hl; [reflexivity|].
  cbn [existsb] in Hl. apply orb_false_elim in Hl as [Hl Hls].
  cbn [fold_left]. unfold scan_line at 2. rewrite Hl.
  destruct (startsWith (lit "data: ") l); now apply IH.
Qed.

Lemma scan_lines_keep_dataStr lines eventType dataStr :
  existsb (startsWith (lit "data: ")) lines = false ->
  snd (fold_left scan_line lines (eventType, dataStr)) = dataStr.
Proof.
  revert eventType dataStr; induction lines as [|l lines IH];
    intros eventType dataStr Hl; [reflexivity|].
  cbn [existsb] in Hl. apply orb_false_elim in Hl as [Hl Hls].
  cbn [fold_left]. unfold scan_line at 2. rewrite Hl.
  destruct (startsWith (lit "event: ") l); now apply IH.
Qed.

(** X4. A block without a line that starts with ["event: "], or without
    one that starts with ["data: "], is passed over before its payload is
    read: nothing changes and nothing is logged, also when the payload is
    no JSON. *)
Theorem block_without_marker_is_skipped `{Platform}
  (optimisticId eventBlock : jsstring) (m : Machine) :
  existsb (startsWith (lit "event: ")) (split [LF] eventBlock) = false
  \/ existsb (startsWith (lit "data: ")) (split [LF] eventBlock) = false ->
  process_block optimisticId eventBlock m = (inr tt, m).
Proof.
  intros Hlack. unfold process_block.
  destruct (is_empty (trim eventBlock)); [reflexivity|].
  destruct (parse_block eventBlock) as [eventType dataStr] eqn:E.
  assert (Hskip : is_empty eventType || is_empty dataStr = true).
  { unfold parse_block in E. cbv zeta in E.
    destruct Hlack as [Hl | Hl].
    - assert (Hk : eventType = []).
      { change eventType with (fst (eventType, dataStr)). rewrite <- E.
        now apply scan_lines_keep_eventType. }
      now subst eventType.
    - assert (Hk : dataStr = []).
      { change dataStr with (snd (eventType, dataStr)). rewrite <- E.
        now apply scan_lines_keep_dataStr. }
      subst dataStr. apply orb_true_r. }
  rewrite Hskip. reflexivity.
Qed.

Lemma block_without_marker_is_skipped_witness :
  process_block (H := Browser.platform) (lit "temp-1")
    (lit "event:token" ++ [LF] ++ lit "data: {oops")
    (Scenario.idle (Some Scenario.chat))
  = (inr tt, Scenario.idle (Some Scenario.chat)).
Proof.
  apply (block_without_marker_is_skipped (H := Browser.platform)).
  left; reflexivity.
Defined.

Section Dispatch.

Context `{Platform}.

Variable optimisticId : jsstring.

Lemma block_outcome_event eventBlock eventType data p :
  is_event eventBlock eventType data ->
  is_empty eventType = false ->
  exists dataStr,
    JSON_parse dataStr = Some data
    /\ block_outcome optimisticId eventBlock p =
       match dispatch optimisticId eventType dataStr p with
       | inr p' => (p', [])
       | inl e => (p, [console_warn e])
       end.
Proof.
  intros (Hb & dataStr & Hp & Hd & Hj) He.
  exists dataStr. split; [exact Hj|].
  unfold block_outcome. now rewrite Hb, Hp, He, Hd.
Qed.

(** X5. An event of a type other than [token], [status], [error] and
    [done], with a payload that is JSON, is ignored: nothing changes and
    nothing is logged. *)
Theorem unknown_event_is_ignored eventBlock eventType data m :
  is_event eventBlock eventType data ->
  jsstring_eqb eventType (lit "token") = false ->
  jsstring_eqb eventType (lit "status") = false ->
  jsstring_eqb eventType (lit "error") = false ->
  jsstring_eqb eventType (lit "done") = false ->
  process_block optimisticId eventBlock m = (inr tt, m).
Proof.
  intros (Hb & dataStr & Hp & Hd & Hj) H1 H2 H3 H4.
  rewrite process_block_outcome. unfold block_outcome.
  rewrite Hb, Hp, Hd, orb_false_r.
  destruct m as [p es]. cbn [cells effects].
  destruct (is_empty eventType);
    [cbn [fst snd]; now rewrite app_nil_r|].
  unfold dispatch. rewrite Hj, H1, H2, H3, H4.
  cbn [fst snd]. now rewrite app_nil_r.
Qed.

End Dispatch.

Lemma unknown_event_is_ignored_witness :
  process_block (H := Browser.platform) (lit "temp-1")
    (lit "event: ping" ++ [LF] ++ lit "data: {}")
    (Scenario.idle (Some Scenario.chat))
  = (inr tt, Scenario.idle (Some Scenario.chat)).
Proof.
  apply (@unknown_event_is_ignored Browser.platform (lit "temp-1")
           _ (lit "ping") (JObj []));
    try reflexivity.
  split; [reflexivity|]. exists (lit "{}"). repeat split; reflexivity.
Defined.

Lemma with_streamingMessage_same p :
  with_streamingMessage (streamingMessage p) p = p.
Proof. now destruct p. Qed.

Lemma with_agentStatus_same p : with_agentStatus (agentStatus p) p = p.
Proof. now destruct p. Qed.

Lemma with_agentStatus_twice a b p :
  with_agentStatus a (with_agentStatus b p) = with_agentStatus a p.
Proof. reflexivity. Qed.

Lemma last_default {A : Type} (l : list A) (d d' : A) :
  l <> [] -> last l d = last l d'.
Proof.
  induction l as [|x l IH]; [congruence|]. intros _.
  destruct l; [reflexivity|]. cbn [last] in *. apply IH. discriminate.
Qed.

Section EventRuns.

Context `{Platform}.

Variable optimisticId : jsstring.

Lemma token_block_outcome eventBlock text p :
  is_token_block eventBlock text ->
  block_outcome optimisticId eventBlock p =
  (with_streamingMessage (streamingMessage p ++ text) p, []).
Proof.
  intros (data & Hev & Hc).
  destruct (block_outcome_event optimisticId _ _ _ p Hev eq_refl)
    as (dataStr & Hj & ->).
  unfold dispatch. rewrite Hj.
  change (jsstring_eqb (lit "token") (lit "token")) with true. cbv iota.
  rewrite Hc. reflexivity.
Qed.

(** X6. The streaming text is the concatenation of the contents of the
    [token] events, in the order of their blocks: a run of token blocks
    appends their contents, one after the other, to the text that was
    there, and changes nothing else. *)
Theorem tokens_accumulate blocks texts m :
  Forall2 is_token_block blocks texts ->
  for_of blocks (process_block optimisticId) m =
  (inr tt,
   {| cells := with_streamingMessage
                 (streamingMessage (cells m) ++ concat texts) (cells m);
      effects := effects m |}).
Proof.
  intros Hall. rewrite for_of_outcome.
  assert (E : blocks_outcome optimisticId blocks (cells m) =
              (with_streamingMessage
                 (streamingMessage (cells m) ++ concat texts) (cells m), [])).
  { generalize (cells m) as p.
    induction Hall as [|b t blocks texts Hb Hall IH]; intros p.
    - cbn [blocks_outcome concat].
      now rewrite app_nil_r, with_streamingMessage_same.
    - cbn [blocks_outcome concat].
      rewrite (token_block_outcome _ _ p Hb), IH.
      cbn [streamingMessage with_streamingMessage app].
      now rewrite app_assoc. }
  rewrite E. cbn [fst snd]. now rewrite app_nil_r.
Qed.

Lemma status_block_outcome eventBlock value p :
  is_status_block eventBlock value ->
  block_outcome optimisticId eventBlock p = (with_agentStatus value p, []).
Proof.
  intros (data & Hev & Hc).
  destruct (block_outcome_event optimisticId _ _ _ p Hev eq_refl)
    as (dataStr & Hj & ->).
  unfold dispatch. rewrite Hj.
  change (jsstring_eqb (lit "status") (lit "token")) with false.
  change (jsstring_eqb (lit "status") (lit "status")) with true. cbv iota.
  rewrite Hc. reflexivity.
Qed.

(** X7. The status shown is that of the latest [status] event: after a
    run of status blocks the status cell holds what the last of them has
    as [status] (also [undefined], when it has none), and nothing else
    has changed. *)
Theorem latest_status_wins blocks values m :
  Forall2 is_status_block blocks values ->
  for_of blocks (process_block optimisticId) m =
  (inr tt,
   {| cells := with_agentStatus (last values (agentStatus (cells m))) (cells m);
      effects := effects m |}).
Proof.
  intros Hall. rewrite for_of_outcome.
  assert (E : blocks_outcome optimisticId blocks (cells m) =
              (with_agentStatus (last values (agentStatus (cells m)))
                 (cells m), [])).
  { generalize (cells m) as p.
    induction Hall as [|b v blocks values Hb Hall IH]; intros p.
    - cbn [blocks_outcome last]. now rewrite with_agentStatus_same.
    - cbn [blocks_outcome].
      rewrite (status_block_outcome _ _ p Hb), IH.
      rewrite with_agentStatus_twice. cbn [app]. f_equal. f_equal.
      change (agentStatus (with_agentStatus v p)) with v.
      destruct values as [|v' values]; [reflexivity|].
      change (last (v :: v' :: values) (agentStatus p))
        with (last (v' :: values) (agentStatus p)).
      apply last_default; discriminate. }
  rewrite E. cbn [fst snd]. now rewrite app_nil_r.
Qed.

Lemma done_block_outcome eventBlock data userMessage aiMessage prev ms p :
  is_event eventBlock (lit "done") data ->
  get data (lit "userMessage") = inr userMessage ->
  get data (lit "aiMessage") = inr aiMessage ->
  ToBoolean userMessage = true ->
  ToBoolean aiMessage = true ->
  currentChatData p = Some prev ->
  messages prev = map Message_to_js ms ->
  block_outcome optimisticId eventBlock p =
  (with_currentChatData
     (Some (with_messages prev
              (map Message_to_js
                 (filter (fun x => negb (jsstring_eqb (id x) optimisticId)) ms)
               ++ [userMessage; aiMessage])))
     p, []).
Proof.
  intros Hev Hu Ha Tu Ta Hc Hms.
  destruct (block_outcome_event optimisticId _ _ _ p Hev eq_refl)
    as (dataStr & Hj & ->).
  unfold dispatch. rewrite Hj.
  change (jsstring_eqb (lit "done") (lit "token")) with false.
  change (jsstring_eqb (lit "done") (lit "status")) with false.
  change (jsstring_eqb (lit "done") (lit "error")) with false.
  change (jsstring_eqb (lit "done") (lit "done")) with true. cbv iota.
  rewrite Hc, Ha, Ta, Hu, Tu. unfold finalize.
  now rewrite Hms, without_id_messages.
Qed.

(** X8. A [done] event that carries both messages (any values that are
    truthy: their shape is not looked at) takes every message with the
    optimistic id out of the list and puts [userMessage] and then
    [aiMessage] at its end; no other cell changes and nothing is
    logged. *)
Theorem done_event_finalizes eventBlock data userMessage aiMessage prev ms m :
  is_event eventBlock (lit "done") data ->
  get data (lit "userMessage") = inr userMessage ->
  get data (lit "aiMessage") = inr aiMessage ->
  ToBoolean userMessage = true ->
  ToBoolean aiMessage = true ->
  currentChatData (cells m) = Some prev ->
  messages prev = map Message_to_js ms ->
  process_block optimisticId eventBlock m =
  (inr tt,
   {| cells :=
        with_currentChatData
          (Some (with_messages prev
                   (map Message_to_js
                      (filter
                         (fun x => negb (jsstring_eqb (id x) optimisticId)) ms)
                    ++ [userMessage; aiMessage])))
          (cells m);
      effects := effects m |}).
Proof.
  intros Hev Hu Ha Tu Ta Hc Hms.
  rewrite process_block_outcome.
  rewrite (done_block_outcome _ _ _ _ _ _ (cells m) Hev Hu Ha Tu Ta Hc Hms).
  cbn [fst snd]. now rewrite app_nil_r.
Qed.

End EventRuns.

Lemma tokens_accumulate_witness :
  for_of
    [lit "event: token" ++ [LF] ++ jlit "data: {'content':'Hi'}";
     lit "event: token" ++ [LF] ++ jlit "data: {'content':' there'}"]
    (process_block (H := Browser.platform) (lit "temp-1"))
    (Scenario.idle (Some Scenario.chat))
  = (inr tt,
     {| cells := with_streamingMessage
                   ([] ++ concat [lit "Hi"; lit " there"])
                   (Scenario.idle_page (Some Scenario.chat));
        effects := [] |}).
Proof.
  apply (@tokens_accumulate Browser.platform (lit "temp-1")).
  repeat constructor.
  - exists (JObj [(lit "content", JStr (lit "Hi"))]).
    split; [|reflexivity]. split; [reflexivity|].
    exists (jlit "{'content':'Hi'}"). repeat split; reflexivity.
  - exists (JObj [(lit "content", JStr (lit " there"))]).
    split; [|reflexivity]. split; [reflexivity|].
    exists (jlit "{'content':' there'}"). repeat split; reflexivity.
Defined.

Lemma latest_status_wins_witness :
  for_of
    [lit "event: status" ++ [LF] ++ jlit "data: {'status':'thinking'}";
     lit "event: status" ++ [LF] ++ jlit "data: {'status':'searching'}"]
    (process_block (H := Browser.platform) (lit "temp-1"))
    (Scenario.idle (Some Scenario.chat))
  = (inr tt,
     {| cells := with_agentStatus
                   (last [JStr (lit "thinking"); JStr (lit "searching")]
                      (agentStatus (Scenario.idle_page (Some Scenario.chat))))
                   (Scenario.idle_page (Some Scenario.chat));
        effects := [] |}).
Proof.
  apply (@latest_status_wins Browser.platform (lit "temp-1")).
  repeat constructor.
  - exists (JObj [(lit "status", JStr (lit "thinking"))]).
    split; [|reflexivity]. split; [reflexivity|].
    exists (jlit "{'status':'thinking'}"). repeat split; reflexivity.
  - exists (JObj [(lit "status", JStr (lit "searching"))]).
    split; [|reflexivity]. split; [reflexivity|].
    exists (jlit "{'status':'searching'}"). repeat split; reflexivity.
Defined.

Lemma done_event_finalizes_witness :
  process_block (H := Browser.platform) (lit "temp-1700000000000")
    (lit "event: done" ++ [LF]
     ++ jlit "data: {'userMessage':{'id':'u1'},'aiMessage':{'id':'a1'}}")
    (Scenario.idle
       (Some (with_messages Scenario.chat
                (map Message_to_js
                   [Scenario.persisted "m0" assistant "Hi"; Scenario.hello]))))
  = (inr tt,
     {| cells :=
          with_currentChatData
            (Some (with_messages
                     (with_messages Scenario.chat
                        (map Message_to_js
                           [Scenario.persisted "m0" assistant "Hi";
                            Scenario.hello]))
                     (map Message_to_js
                        (filter
                           (fun x => negb (jsstring_eqb (id x)
                                             (lit "temp-1700000000000")))
                           [Scenario.persisted "m0" assistant "Hi";
                            Scenario.hello])
                      ++ [JObj [(lit "id", JStr (lit "u1"))];
                          JObj [(lit "id", JStr (lit "a1"))]])))
            (Scenario.idle_page
               (Some (with_messages Scenario.chat
                        (map Message_to_js
                           [Scenario.persisted "m0" assistant "Hi";
                            Scenario.hello]))));
        effects := [] |}).
Proof.
  apply (@done_event_finalizes Browser.platform (lit "temp-1700000000000")
           _ (JObj [(lit "userMessage", JObj [(lit "id", JStr (lit "u1"))]);
                    (lit "aiMessage", JObj [(lit "id", JStr (lit "a1"))])]));
    try reflexivity.
  split; [reflexivity|].
  exists (jlit "{'userMessage':{'id':'u1'},'aiMessage':{'id':'a1'}}").
  repeat split; reflexivity.
Defined.

(** ** The send as a whole *)

Lemma same_chat_refl a : same_chat a a.
Proof. destruct a; simpl; auto. Qed.

Lemma same_chat_trans a b c : same_chat a b -> same_chat b c -> same_chat a c.
Proof.
  destruct a, b, c; simpl; try tauto.
  intros [-> ->] [-> ->]. auto.
Qed.

Section Whole.

Context `{Platform}.

Variables (w : World) (content : jsstring).

Lemma try_block_token_rejected chat uid err m :
  getToken w = inl err ->
  try_block w chat uid content m =
  (inl err,
   {| cells := started_page (optimisticUserMessage w chat uid content)
                 (cells m);
      effects := effects m ++ [Call_getToken] |}).
Proof.
  intros Ht. unfold try_block, bind, await.
  unfold setSendMessageError, setIsMessageSending, setIsStreaming,
    setStreamingMessage, setAgentStatus, set_abortControllerRef,
    setCurrentChatData, update.
  cbn [cells effects]. rewrite Ht.
  cbn [cells effects currentChatData with_abortControllerRef with_agentStatus
       with_streamingMessage with_isStreaming with_isMessageSending
       with_sendMessageError].
  unfold started_page.
  destruct (currentChatData (cells m)) as [prev|]; reflexivity.
Qed.

Lemma send_leaves_released m :
  can_send w (cells m) = true ->
  exists p, cells (snd (handleSendMessage w content m)) = released_page p.
Proof.
  intros Hpre.
  destruct (handleSendMessage_can_send w content m Hpre)
    as (chat & uid & _ & _ & ->).
  unfold try_catch_finally.
  destruct (try_block w chat uid content m) as [[err|[]] m1].
  - destruct (catch_block err m1) as [r2 m2]. rewrite finally_block_run.
    exists (cells m2). now destruct r2.
  - rewrite finally_block_run. now exists (cells m1).
Qed.

(** X9. Once the precondition holds, the send ends released whatever
    happens in it (a rejected token, a failed request, any stream, an
    abort, even an exception that escapes the handler): the two flags are
    false, the streaming text and the status are empty and the abort
    controller is cleared. *)
Theorem send_always_releases m :
  can_send w (cells m) = true ->
  isMessageSending (cells (snd (handleSendMessage w content m))) = false
  /\ isStreaming (cells (snd (handleSendMessage w content m))) = false
  /\ streamingMessage (cells (snd (handleSendMessage w content m))) = []
  /\ agentStatus (cells (snd (handleSendMessage w content m))) = JStr []
  /\ abortControllerRef (cells (snd (handleSendMessage w content m))) = None.
Proof.
  intros Hpre. destruct (send_leaves_released m Hpre) as [p ->].
  repeat split.
Qed.

Lemma dispatch_same_chat optimisticId eventType dataStr p p' :
  dispatch optimisticId eventType dataStr p = inr p' ->
  same_chat (currentChatData p) (currentChatData p').
Proof.
  unfold dispatch. intros E.
  repeat break_match; try discriminate; injection E as <-;
    cbn [currentChatData with_streamingMessage with_agentStatus
         with_currentChatData];
    try match goal with
        | Hc : currentChatData p = _ |- _ => rewrite Hc
        end;
    solve [apply same_chat_refl | simpl; auto].
Qed.

Lemma blocks_outcome_same_chat optimisticId blocks p :
  same_chat (currentChatData p)
    (currentChatData (fst (blocks_outcome optimisticId blocks p))).
Proof.
  revert p; induction blocks as [|b blocks IH]; intros p;
    [apply same_chat_refl|].
  cbn [blocks_outcome].
  assert (Hb : same_chat (currentChatData p)
                 (currentChatData (fst (block_outcome optimisticId b p)))).
  { unfold block_outcome.
    destruct (is_empty (trim b)); [apply same_chat_refl|].
    destruct (parse_block b) as [eventType dataStr].
    destruct (is_empty eventType || is_empty dataStr);
      [apply same_chat_refl|].
    destruct (dispatch optimisticId eventType dataStr p) eqn:E;
      [apply same_chat_refl|].
    now apply dispatch_same_chat in E. }
  destruct (block_outcome optimisticId b p) as [p1 es1]. cbn [fst] in Hb.
  specialize (IH p1).
  destruct (blocks_outcome optimisticId blocks p1) as [p2 es2].
  cbn [fst] in *. eapply same_chat_trans; eassumption.
Qed.

Lemma started_page_same_chat optimistic p :
  same_chat (currentChatData p) (currentChatData (started_page optimistic p)).
Proof.
  unfold started_page. cbn [currentChatData].
  destruct (currentChatData p); simpl; auto.
Qed.

Lemma try_block_same_chat chat uid m :
  same_chat (currentChatData (cells m))
    (currentChatData (cells (snd (try_block w chat uid content m)))).
Proof.
  destruct (getToken w) as [err|token] eqn:Ht.
  - rewrite (try_block_token_rejected chat uid err m Ht).
    apply started_page_same_chat.
  - destruct (fetch w) as [err|response] eqn:Hf.
    + rewrite (try_block_fetch_rejected w content chat uid token err m Ht Hf).
      apply started_page_same_chat.
    + destruct (ok response) eqn:Hok.
      * destruct (body response) as [stream|] eqn:Hb.
        -- rewrite (try_block_stream w content chat uid token response stream m
                      Ht Hf Hok Hb).
           match goal with
           | |- context [read_loop ?i ?d ?b ?c ?e ?m0] =>
               destruct (read_loop_outcome i c e d b m0) as (es & -> & _)
           end.
           cbn [snd cells].
           eapply same_chat_trans;
             [apply started_page_same_chat|apply blocks_outcome_same_chat].
        -- rewrite (try_block_no_body w content chat uid token response m
                      Ht Hf Hok Hb).
           apply started_page_same_chat.
      * rewrite (try_block_http_error w content chat uid token response m
                   Ht Hf Hok).
        apply started_page_same_chat.
Qed.

Lemma catch_block_same_chat err m :
  same_chat (currentChatData (cells m))
    (currentChatData (cells (snd (catch_block err m)))).
Proof.
  unfold catch_block. destruct (is_AbortError err); [apply same_chat_refl|].
  unfold bind, setSendMessageError, setCurrentChatData, update, perform.
  cbn [cells effects currentChatData with_sendMessageError].
  destruct (currentChatData (cells m)) as [prev|] eqn:E;
    [|cbn [snd cells currentChatData with_currentChatData]; exact I].
  destruct (rollback (messages prev));
    cbn [snd cells currentChatData with_currentChatData with_sendMessageError];
    [|rewrite E]; simpl; auto.
Qed.

(** X10. A send changes nothing of the chat but its messages: whatever
    the handler is given and whatever the stream carries, a chat that is
    null stays null, and a chat that is there is still there afterwards,
    with the same id and the same other members. *)
Theorem send_keeps_the_chat m :
  same_chat (currentChatData (cells m))
    (currentChatData (cells (snd (handleSendMessage w content m)))).
Proof.
  destruct (can_send w (cells m)) eqn:Hpre.
  - destruct (handleSendMessage_can_send w content m Hpre)
      as (chat & uid & _ & _ & ->).
    unfold try_catch_finally.
    pose proof (try_block_same_chat chat uid m) as H1.
    destruct (try_block w chat uid content m) as [[err|[]] m1];
      cbn [snd] in H1.
    + pose proof (catch_block_same_chat err m1) as H2.
      destruct (catch_block err m1) as [r2 m2]. cbn [snd] in H2.
      rewrite finally_block_run.
      destruct r2; eapply same_chat_trans; eassumption.
    + rewrite finally_block_run. exact H1.
  - rewrite (handleSendMessage_cannot_send w content m Hpre).
    apply same_chat_refl.
Qed.

(** What the handler leaves when the request fails before the first read,
    on a list of messages. *)
Lemma failure_before_stream chat ms err es m :
  can_send w (cells m) = true ->
  currentChatData (cells m) = Some chat ->
  messages chat = map Message_to_js ms ->
  (forall uid,
     try_block w chat uid content m =
     (inl err,
      {| cells := started_page (optimisticUserMessage w chat uid content)
                    (cells m);
         effects := effects m ++ es |})) ->
  is_AbortError err = false ->
  handleSendMessage w content m =
  (inr tt,
   {| cells :=
        {| currentChatData :=
             Some (with_messages chat
                     (map Message_to_js
                        (filter (fun x => negb (has_temporary_id x)) ms)));
           sendMessageError := Some (errorMessage_of err);
           isMessageSending := false;
           isStreaming := false;
           streamingMessage := [];
           agentStatus := JStr [];
           abortControllerRef := None |};
      effects := (effects m ++ es) ++ [toast_error (errorMessage_of err)] |}).
Proof.
  intros Hpre Hc Hms Htry Herr.
  assert (Hu : exists uid, userId w = Some uid /\ uid <> []).
  { unfold can_send in Hpre. rewrite Hc in Hpre.
    destruct (userId w) as [[|c uid]|]; try discriminate.
    exists (c :: uid). split; [reflexivity|discriminate]. }
  destruct Hu as (uid & Hu & Hne).
  set (optimistic := optimisticUserMessage w chat uid content).
  rewrite (failure_after_try w content chat uid err m _
             (with_messages chat
                (appendOptimistic optimistic (messages chat)))
             (ms ++ [optimistic]) Hc Hu Hne (Htry uid) Herr).
  - cbn [cells effects]. f_equal.
    rewrite filter_app. cbn [filter].
    assert (Tm : has_temporary_id optimistic = true) by apply startsWith_app.
    rewrite Tm. cbn [negb]. rewrite app_nil_r. reflexivity.
  - cbn [cells]. unfold started_page. cbn [currentChatData].
    now rewrite Hc.
  - cbn [messages with_messages]. unfold appendOptimistic.
    rewrite Hms, map_app. reflexivity.
Qed.

(** X11. When [getToken] is rejected (by something else than an abort)
    no request is made: the only call is that of [getToken]; the message
    of the rejection (["Failed to send message"] for a value that is no
    [Error]) is set and shown in a toast, the optimistic message is taken
    back, and the session is released. *)
Theorem token_failure_makes_no_request chat ms err m :
  can_send w (cells m) = true ->
  currentChatData (cells m) = Some chat ->
  messages chat = map Message_to_js ms ->
  getToken w = inl err ->
  is_AbortError err = false ->
  handleSendMessage w content m =
  (inr tt,
   {| cells :=
        {| currentChatData :=
             Some (with_messages chat
                     (map Message_to_js
                        (filter (fun x => negb (has_temporary_id x)) ms)));
           sendMessageError := Some (errorMessage_of err);
           isMessageSending := false;
           isStreaming := false;
           streamingMessage := [];
           agentStatus := JStr [];
           abortControllerRef := None |};
      effects := (effects m ++ [Call_getToken])
                 ++ [toast_error (errorMessage_of err)] |}).
Proof.
  intros Hpre Hc Hms Ht Herr.
  apply (failure_before_stream chat ms err [Call_getToken] m Hpre Hc Hms);
    [|exact Herr].
  intros uid. now apply try_block_token_rejected.
Qed.

(** X12. A response whose status is no success is never read: after the
    calls of [getToken] and [fetch] the handler sets and shows
    ["HTTP error! status: "] followed by the status in decimal, takes the
    optimistic message back and releases the session. *)
Theorem http_error_surfaces_the_status chat ms token response m :
  can_send w (cells m) = true ->
  currentChatData (cells m) = Some chat ->
  messages chat = map Message_to_js ms ->
  getToken w = inr token ->
  fetch w = inr response ->
  ok response = false ->
  handleSendMessage w content m =
  (inr tt,
   {| cells :=
        {| currentChatData :=
             Some (with_messages chat
                     (map Message_to_js
                        (filter (fun x => negb (has_temporary_id x)) ms)));
           sendMessageError :=
             Some (lit "HTTP error! status: " ++ decimal (status response));
           isMessageSending := false;
           isStreaming := false;
           streamingMessage := [];
           agentStatus := JStr [];
           abortControllerRef := None |};
      effects :=
        (effects m ++ [Call_getToken; fetch_call w chat token content])
        ++ [toast_error
              (lit "HTTP error! status: " ++ decimal (status response))] |}).
Proof.
  intros Hpre Hc Hms Ht Hf Hok.
  apply (failure_before_stream chat ms
           (ErrorObj (lit "Error")
              (lit "HTTP error! status: " ++ decimal (status response)))
           [Call_getToken; fetch_call w chat token content] m Hpre Hc Hms);
    [|reflexivity].
  intros uid.
  rewrite (try_block_http_error w content chat uid token response m Ht Hf Hok).
  now rewrite <- app_assoc.
Qed.

End Whole.

Lemma send_always_releases_witness :
  isMessageSending
    (cells (snd (handleSendMessage (H := Browser.platform)
                   (Scenario.world (Some (lit "user_1"))
                      (inl (ErrorObj (lit "TypeError") (lit "Failed to fetch"))))
                   (lit "Hello") (Scenario.idle (Some Scenario.chat))))) = false
  /\ isStreaming
       (cells (snd (handleSendMessage (H := Browser.platform)
                      (Scenario.world (Some (lit "user_1"))
                         (inl (ErrorObj (lit "TypeError")
                                 (lit "Failed to fetch"))))
                      (lit "Hello") (Scenario.idle (Some Scenario.chat)))))
     = false
  /\ streamingMessage
       (cells (snd (handleSendMessage (H := Browser.platform)
                      (Scenario.world (Some (lit "user_1"))
                         (inl (ErrorObj (lit "TypeError")
                                 (lit "Failed to fetch"))))
                      (lit "Hello") (Scenario.idle (Some Scenario.chat)))))
     = []
  /\ agentStatus
       (cells (snd (handleSendMessage (H := Browser.platform)
                      (Scenario.world (Some (lit "user_1"))
                         (inl (ErrorObj (lit "TypeError")
                                 (lit "Failed to fetch"))))
                      (lit "Hello") (Scenario.idle (Some Scenario.chat)))))
     = JStr []
  /\ abortControllerRef
       (cells (snd (handleSendMessage (H := Browser.platform)
                      (Scenario.world (Some (lit "user_1"))
                         (inl (ErrorObj (lit "TypeError")
                                 (lit "Failed to fetch"))))
                      (lit "Hello") (Scenario.idle (Some Scenario.chat)))))
     = None.
Proof.
  apply (@send_always_releases Browser.platform). reflexivity.
Defined.

Lemma token_failure_makes_no_request_witness :
  handleSendMessage (H := Browser.platform)
    {| API_BASE_URL := lit "http://localhost:8000";
       projectId := lit "p1";
       userId := Some (lit "user_1");
       Date_now := 1700000000000;
       Date_toISOString := lit "2023-11-14T22:13:20.000Z";
       getToken := inl NonError;
       fetch := Scenario.failing 500 |}
    (lit "Hello")
    (Scenario.idle
       (Some (with_messages Scenario.chat
                (map Message_to_js [Scenario.persisted "m0" assistant "Hi"]))))
  = (inr tt,
     {| cells :=
          {| currentChatData :=
               Some (with_messages
                       (with_messages Scenario.chat
                          (map Message_to_js
                             [Scenario.persisted "m0" assistant "Hi"]))
                       (map Message_to_js
                          (filter (fun x => negb (has_temporary_id x))
                             [Scenario.persisted "m0" assistant "Hi"])));
             sendMessageError := Some (errorMessage_of NonError);
             isMessageSending := false;
             isStreaming := false;
             streamingMessage := [];
             agentStatus := JStr [];
             abortControllerRef := None |};
        effects := ([] ++ [Call_getToken])
                   ++ [toast_error (errorMessage_of NonError)] |}).
Proof.
  apply (@token_failure_makes_no_request Browser.platform); reflexivity.
Defined.

Lemma http_error_surfaces_the_status_witness :
  handleSendMessage (H := Browser.platform)
    (Scenario.world (Some (lit "user_1")) (Scenario.failing 503))
    (lit "Hello")
    (Scenario.idle
       (Some (with_messages Scenario.chat
                (map Message_to_js [Scenario.persisted "m0" assistant "Hi"]))))
  = (inr tt,
     {| cells :=
          {| currentChatData :=
               Some (with_messages
                       (with_messages Scenario.chat
                          (map Message_to_js
                             [Scenario.persisted "m0" assistant "Hi"]))
                       (map Message_to_js
                          (filter (fun x => negb (has_temporary_id x))
                             [Scenario.persisted "m0" assistant "Hi"])));
             sendMessageError := Some (lit "HTTP error! status: " ++ decimal 503);
             isMessageSending := false;
             isStreaming := false;
             streamingMessage := [];
             agentStatus := JStr [];
             abortControllerRef := None |};
        effects :=
          ([] ++ [Call_getToken;
                  fetch_call
                    (Scenario.world (Some (lit "user_1")) (Scenario.failing 503))
                    (with_messages Scenario.chat
                       (map Message_to_js
                          [Scenario.persisted "m0" assistant "Hi"]))
                    (Some (lit "tok")) (lit "Hello")])
          ++ [toast_error (lit "HTTP error! status: " ++ decimal 503)] |}).
Proof.
  apply (@http_error_surfaces_the_status Browser.platform
           (Scenario.world (Some (lit "user_1")) (Scenario.failing 503))
           (lit "Hello") _ _ (Some (lit "tok"))
           {| ok := false; status := 503; body := None |});
    reflexivity.
Defined.

Lemma completed_stream_is_silent_witness :
  exists m',
    handleSendMessage (H := Browser.platform)
      (Scenario.world (Some (lit "user_1"))
         (Scenario.streaming [Scenario.rate_limited] None))
      (lit "Hello") (Scenario.idle (Some Scenario.chat))
    = (inr tt, m')
    /\ sendMessageError (cells m') = None
    /\ filter is_toast (effects m') = [].
Proof.
  eapply (@completed_stream_is_silent Browser.platform); reflexivity.
Defined.

Lemma cancel_before_stream_is_silent_witness :
  exists uid,
    userId (Scenario.world (Some (lit "user_1"))
              (inl (ErrorObj (lit "AbortError") (lit "Aborted")))) = Some uid
    /\ handleSendMessage (H := Browser.platform)
         (Scenario.world (Some (lit "user_1"))
            (inl (ErrorObj (lit "AbortError") (lit "Aborted"))))
         (lit "Hello") (Scenario.idle (Some Scenario.chat))
       = (inr tt,
          {| cells :=
               released_page
                 (started_page
                    (optimisticUserMessage
                       (Scenario.world (Some (lit "user_1"))
                          (inl (ErrorObj (lit "AbortError") (lit "Aborted"))))
                       Scenario.chat uid (lit "Hello"))
                    (Scenario.idle_page (Some Scenario.chat)));
             effects :=
               ([] ++ [Call_getToken])
               ++ [fetch_call
                     (Scenario.world (Some (lit "user_1"))
                        (inl (ErrorObj (lit "AbortError") (lit "Aborted"))))
                     Scenario.chat (Some (lit "tok")) (lit "Hello")] |}).
Proof.
  apply (@cancel_before_stream_is_silent Browser.platform
           (Scenario.world (Some (lit "user_1"))
              (inl (ErrorObj (lit "AbortError") (lit "Aborted"))))
           (lit "Hello") (Scenario.idle (Some Scenario.chat)) Scenario.chat
           (Some (lit "tok")) (lit "Aborted"));
    reflexivity.
Defined.

(** ** The rest of the page *)

(** X15. Without a signed-in user [loadChat] does nothing at all: no call,
    no toast, no cell written.  The loading flag, true at the first
    render, is therefore never cleared, and the page goes on showing the
    spinner. *)
Theorem loadChat_without_user w chatId answer s :
  signed_in w = false ->
  loadChat w chatId answer s = s
  /\ render w
       (component
          (loadChat w chatId answer
             {| component := first_render; actions := [] |}))
     = LoadingSpinner (lit "Loading chat...").
Proof.
  intros Hu. unfold loadChat. rewrite Hu. split; reflexivity.
Qed.

Lemma loadChat_without_user_witness :
  loadChat (Scenario.world None (Scenario.failing 500)) (lit "c1")
    (inr (Some Scenario.chat)) {| component := first_render; actions := [] |}
  = {| component := first_render; actions := [] |}
  /\ render (Scenario.world None (Scenario.failing 500))
       (component
          (loadChat (Scenario.world None (Scenario.failing 500)) (lit "c1")
             (inr (Some Scenario.chat))
             {| component := first_render; actions := [] |}))
     = LoadingSpinner (lit "Loading chat...").
Proof.
  apply (loadChat_without_user
           (Scenario.world None (Scenario.failing 500)) (lit "c1")
           (inr (Some Scenario.chat))
           {| component := first_render; actions := [] |}).
  reflexivity.
Defined.

(** X16. With a signed-in user [loadChat] always ends with the loading
    flag cleared and exactly one toast.  The chat is replaced only when
    both [getToken] and the request succeed, and then by whatever [data]
    the answer has, also by null; a failure leaves the chat that was
    there.  The request is made only when the token was obtained. *)
Theorem loadChat_settles w chatId answer s :
  signed_in w = true ->
  loadChat w chatId answer s =
  {| component :=
       with_isLoadingChatData false
         match getToken w, answer with
         | inr _, inr chatData =>
             with_send_cells
               (with_currentChatData chatData (send_cells (component s)))
               (component s)
         | _, _ => component s
         end;
     actions :=
       actions s
       ++ of_send Call_getToken
          :: match getToken w with
             | inl _ =>
                 [of_send
                    (toast_error (lit "Failed to load chat. Please try again."))]
             | inr token =>
                 [apiClient_get (lit "/api/chat/" ++ chatId) token;
                  match answer with
                  | inl _ =>
                      of_send
                        (toast_error
                           (lit "Failed to load chat. Please try again."))
                  | inr _ => toast_success (lit "Chat loaded")
                  end]
             end |}.
Proof.
  intros Hu. unfold loadChat. rewrite Hu.
  unfold set_component, act. cbn [component actions].
  destruct (getToken w) as [e|token]; cbn [component actions].
  - now rewrite <- app_assoc.
  - destruct answer as [e|chatData]; cbn [component actions];
      now rewrite <- !app_assoc.
Qed.

Lemma loadChat_settles_witness :
  loadChat (Scenario.world (Some (lit "user_1")) (Scenario.failing 500))
    (lit "c1") (inr None) {| component := first_render; actions := [] |}
  = {| component :=
         with_isLoadingChatData false
           (with_send_cells
              (with_currentChatData None (send_cells first_render))
              first_render);
       actions :=
         [] ++ [of_send Call_getToken;
                apiClient_get (lit "/api/chat/" ++ lit "c1") (Some (lit "tok"));
                toast_success (lit "Chat loaded")] |}.
Proof.
  apply (loadChat_settles
           (Scenario.world (Some (lit "user_1")) (Scenario.failing 500))
           (lit "c1") (inr None) {| component := first_render; actions := [] |}).
  reflexivity.
Defined.

(** X17. What the page shows once [loadChat] has run for a signed-in
    user, from the first render: never the spinner; the chat when the
    answer had one; and ["Chat not found"] when the token or the request
    failed, and also when the request succeeded with no [data] (the toast
    then said ["Chat loaded"]). *)
Theorem page_after_loadChat w chatId answer :
  signed_in w = true ->
  render w
    (component
       (loadChat w chatId answer
          {| component := first_render; actions := [] |}))
  = match getToken w, answer with
    | inr _, inr (Some chatData) =>
        ChatInterface
          {| chat := chatData;
             props_projectId := projectId w;
             isLoading := false;
             error := None;
             props_isStreaming := false;
             props_streamingMessage := [];
             props_agentStatus := JStr [];
             isOpen := false;
             feedbackType := None |}
    | _, _ => NotFound (lit "Chat not found")
    end.
Proof.
  intros Hu. unfold loadChat. rewrite Hu.
  destruct (getToken w) as [e|token]; [reflexivity|].
  destruct answer as [e|[chatData|]]; reflexivity.
Qed.

Lemma page_after_loadChat_witness :
  render (Scenario.world (Some (lit "user_1")) (Scenario.failing 500))
    (component
       (loadChat (Scenario.world (Some (lit "user_1")) (Scenario.failing 500))
          (lit "c1") (inr (Some Scenario.chat))
          {| component := first_render; actions := [] |}))
  = ChatInterface
      {| chat := Scenario.chat;
         props_projectId := lit "p1";
         isLoading := false;
         error := None;
         props_isStreaming := false;
         props_streamingMessage := [];
         props_agentStatus := JStr [];
         isOpen := false;
         feedbackType := None |}.
Proof.
  apply (page_after_loadChat
           (Scenario.world (Some (lit "user_1")) (Scenario.failing 500))
           (lit "c1") (inr (Some Scenario.chat))).
  reflexivity.
Defined.

(** X18. Opening the feedback modal on a message and then submitting
    sends that message's id, with the rating, the comment and the
    category of the submitted feedback (the type chosen when the modal
    was opened is not what is sent), after the call of [getToken]; one
    toast tells whether the request succeeded; and the modal is closed.
    The cells of the send are not touched. *)
Theorem feedback_posts_the_opened_message
  w post feedback opened chosen token s :
  signed_in w = true ->
  getToken w = inr token ->
  handleFeedbackSubmit w post feedback (handleFeedbackOpen opened chosen s) =
  {| component := with_feedbackModal None (component s);
     actions :=
       actions s
       ++ [of_send Call_getToken;
           apiClient_post (lit "/api/feedback") opened (rating feedback)
             (comment feedback) (category feedback) token;
           match post with
           | inl _ =>
               of_send
                 (toast_error
                    (lit "Failed to submit feedback. Please try again."))
           | inr _ => toast_success (lit "Thanks for your feedback!")
           end] |}.
Proof.
  intros Hu Ht. unfold handleFeedbackSubmit, handleFeedbackOpen.
  rewrite Hu, Ht. unfold set_component, act.
  cbn [component actions feedbackModal with_feedbackModal messageId].
  destruct post; cbn [component actions]; now rewrite <- !app_assoc.
Qed.

Lemma feedback_posts_the_opened_message_witness :
  handleFeedbackSubmit
    (Scenario.world (Some (lit "user_1")) (Scenario.failing 500))
    (inl NonError)
    {| rating := dislike; comment := Some (lit "wrong page"); category := None |}
    (handleFeedbackOpen (lit "a1") like
       {| component := first_render; actions := [] |})
  = {| component := with_feedbackModal None first_render;
       actions :=
         [] ++ [of_send Call_getToken;
                apiClient_post (lit "/api/feedback") (lit "a1") dislike
                  (Some (lit "wrong page")) None (Some (lit "tok"));
                of_send
                  (toast_error
                     (lit "Failed to submit feedback. Please try again."))] |}.
Proof.
  apply (feedback_posts_the_opened_message
           (Scenario.world (Some (lit "user_1")) (Scenario.failing 500))
           (inl NonError)
           {| rating := dislike; comment := Some (lit "wrong page");
              category := None |}
           (lit "a1") like (Some (lit "tok"))
           {| component := first_render; actions := [] |});
    reflexivity.
Defined.

(** X19. A submit by a signed-in user always leaves the modal closed,
    whether the token was obtained or not and whether the request
    succeeded or not; without a signed-in user the modal is left as it
    is.  No submit writes another cell. *)
Theorem feedback_submit_closes_the_modal w post feedback s :
  component (handleFeedbackSubmit w post feedback s) =
  if signed_in w then with_feedbackModal None (component s) else component s.
Proof.
  unfold handleFeedbackSubmit.
  destruct (signed_in w); [|reflexivity].
  destruct (feedbackModal (component s)) as [modal|] eqn:E.
  - destruct (getToken w); [reflexivity|]. destruct post; reflexivity.
  - destruct s as [c es]. cbn [component] in *.
    destruct c. cbn in E. subst. reflexivity.
Qed.

(** X20. After a send that passed the precondition, however it ended, the
    cleanup on unmount has nothing to abort: the handler has cleared the
    abort controller. *)
Theorem cleanup_after_send `{Platform} w content s :
  can_send w (send_cells (component s)) = true ->
  cleanup (snd (onSendMessage w content s)) = snd (onSendMessage w content s).
Proof.
  intros Hpre. unfold onSendMessage.
  destruct (send_leaves_released w content
              {| cells := send_cells (component s); effects := [] |} Hpre)
    as [p Hp].
  destruct (handleSendMessage w content
              {| cells := send_cells (component s); effects := [] |})
    as [r m].
  cbn [snd] in *. unfold cleanup.
  cbn [component send_cells with_send_cells]. now rewrite Hp.
Qed.

Lemma cleanup_after_send_witness :
  cleanup
    (snd (onSendMessage (H := Browser.platform)
            (Scenario.world (Some (lit "user_1"))
               (Scenario.streaming [Scenario.rate_limited]
                  (Some (ErrorObj (lit "AbortError") (lit "Aborted")))))
            (lit "Hello")
            {| component :=
                 with_send_cells (Scenario.idle_page (Some Scenario.chat))
                   first_render;
               actions := [] |}))
  = snd (onSendMessage (H := Browser.platform)
           (Scenario.world (Some (lit "user_1"))
              (Scenario.streaming [Scenario.rate_limited]
                 (Some (ErrorObj (lit "AbortError") (lit "Aborted")))))
           (lit "Hello")
           {| component :=
                with_send_cells (Scenario.idle_page (Some Scenario.chat))
                  first_render;
              actions := [] |}).
Proof.
  apply (@cleanup_after_send Browser.platform). reflexivity.
Defined.

(** ** The stream as a whole *)

Section Streams.

Context `{Platform}.

Lemma frames_of_chunks chunks :
  decode_run [] (decode_chunks TextDecoder_new chunks) =
  (removelast
     (split block_separator
        (snd (TextDecoder_decode TextDecoder_new (concat chunks)))),
   last
     (split block_separator
        (snd (TextDecoder_decode TextDecoder_new (concat chunks)))) []).
Proof.
  rewrite decode_run_concat by reflexivity.
  now rewrite app_nil_l, decode_chunks_concat.
Qed.

(** X21. How the network cuts the body into chunks does not matter: two
    bodies with the same bytes and the same end lead the loop to the same
    outcome and the same page, and to the same effects but for the number
    of reads. *)
Theorem chunking_does_not_matter optimisticId chunks1 chunks2 ending m :
  concat chunks1 = concat chunks2 ->
  fst (read_loop optimisticId TextDecoder_new [] chunks1 ending m)
  = fst (read_loop optimisticId TextDecoder_new [] chunks2 ending m)
  /\ cells (snd (read_loop optimisticId TextDecoder_new [] chunks1 ending m))
     = cells (snd (read_loop optimisticId TextDecoder_new [] chunks2 ending m))
  /\ filter (fun e => negb (is_read e))
       (effects (snd (read_loop optimisticId TextDecoder_new [] chunks1
                        ending m)))
     = filter (fun e => negb (is_read e))
         (effects (snd (read_loop optimisticId TextDecoder_new [] chunks2
                          ending m))).
Proof.
  intros Hsame.
  destruct (read_loop_outcome optimisticId chunks1 ending TextDecoder_new [] m)
    as (es1 & -> & Hes1).
  destruct (read_loop_outcome optimisticId chunks2 ending TextDecoder_new [] m)
    as (es2 & -> & Hes2).
  rewrite frames_of_chunks in Hes1 |- *.
  rewrite frames_of_chunks in Hes2 |- *.
  rewrite Hsame in Hes1 |- *.
  cbn [fst snd cells effects]. repeat split.
  rewrite !filter_app. congruence.
Qed.

End Streams.

Lemma chunking_does_not_matter_witness :
  fst (read_loop (H := Browser.platform) (lit "temp-1") Browser.Utf8_new []
         [Browser.bytes (lit "event: token" ++ [LF] ++ jlit "data: {'con");
          Browser.bytes (jlit "tent':'Hi'}" ++ [LF]);
          Browser.bytes [LF]]
         None (Scenario.idle (Some Scenario.chat)))
  = fst (read_loop (H := Browser.platform) (lit "temp-1") Browser.Utf8_new []
           [Browser.bytes
              (lit "event: token" ++ [LF] ++ jlit "data: {'content':'Hi'}"
               ++ [LF; LF])]
           None (Scenario.idle (Some Scenario.chat)))
  /\ cells
       (snd (read_loop (H := Browser.platform) (lit "temp-1") Browser.Utf8_new
               []
               [Browser.bytes (lit "event: token" ++ [LF] ++ jlit "data: {'con");
                Browser.bytes (jlit "tent':'Hi'}" ++ [LF]);
                Browser.bytes [LF]]
               None (Scenario.idle (Some Scenario.chat))))
     = cells
         (snd (read_loop (H := Browser.platform) (lit "temp-1")
                 Browser.Utf8_new []
                 [Browser.bytes
                    (lit "event: token" ++ [LF] ++ jlit "data: {'content':'Hi'}"
                     ++ [LF; LF])]
                 None (Scenario.idle (Some Scenario.chat))))
  /\ filter (fun e => negb (is_read e))
       (effects
          (snd (read_loop (H := Browser.platform) (lit "temp-1")
                  Browser.Utf8_new []
                  [Browser.bytes
                     (lit "event: token" ++ [LF] ++ jlit "data: {'con");
                   Browser.bytes (jlit "tent':'Hi'}" ++ [LF]);
                   Browser.bytes [LF]]
                  None (Scenario.idle (Some Scenario.chat)))))
     = filter (fun e => negb (is_read e))
         (effects
            (snd (read_loop (H := Browser.platform) (lit "temp-1")
                    Browser.Utf8_new []
                    [Browser.bytes
                       (lit "event: token" ++ [LF]
                        ++ jlit "data: {'content':'Hi'}" ++ [LF; LF])]
                    None (Scenario.idle (Some Scenario.chat))))).
Proof.
  apply (@chunking_does_not_matter Browser.platform). reflexivity.
Defined.

Section Success.

Context `{Platform}.

Variables (w : World) (content : jsstring).

Lemma progress_blocks_outcome optimisticId blocks p :
  Forall is_progress_block blocks ->
  exists p',
    blocks_outcome optimisticId blocks p = (p', [])
    /\ currentChatData p' = currentChatData p.
Proof.
  intros Hall. revert p.
  induction Hall as [|b blocks Hb Hall IH]; intros p.
  - exists p. split; reflexivity.
  - cbn [blocks_outcome].
    assert (Hp : exists p1,
               block_outcome optimisticId b p = (p1, [])
               /\ currentChatData p1 = currentChatData p).
    { destruct Hb as [[text Hb] | [value Hb]].
      - rewrite (token_block_outcome optimisticId _ _ p Hb).
        eexists; split; reflexivity.
      - rewrite (status_block_outcome optimisticId _ _ p Hb).
        eexists; split; reflexivity. }
    destruct Hp as (p1 & -> & E1). destruct (IH p1) as (p2 & -> & E2).
    exists p2. split; [reflexivity|congruence].
Qed.

(** X22. The send that succeeds.  When the token and the response are
    there, and the body, however it is cut into chunks, carries [token]
    and [status] events and then a [done] event with both messages, and
    ends: the handler returns with the optimistic message replaced by
    [userMessage] followed by [aiMessage] at the end of the list, the
    messages that were there before kept in order (but those that have
    the optimistic id); no error is set, nothing is logged or shown in a
    toast, and the session is released. *)
Theorem successful_send chat ms token response stream progress doneBlock
  data userMessage aiMessage m :
  can_send w (cells m) = true ->
  currentChatData (cells m) = Some chat ->
  messages chat = map Message_to_js ms ->
  getToken w = inr token ->
  fetch w = inr response ->
  ok response = true ->
  body response = Some stream ->
  ending stream = None ->
  fst (decode_run [] (decode_chunks TextDecoder_new (chunks stream)))
  = progress ++ [doneBlock] ->
  Forall is_progress_block progress ->
  is_event doneBlock (lit "done") data ->
  get data (lit "userMessage") = inr userMessage ->
  get data (lit "aiMessage") = inr aiMessage ->
  ToBoolean userMessage = true ->
  ToBoolean aiMessage = true ->
  exists reads,
    forallb is_read reads = true
    /\ handleSendMessage w content m =
       (inr tt,
        {| cells :=
             {| currentChatData :=
                  Some (with_messages chat
                          (map Message_to_js
                             (filter
                                (fun x =>
                                   negb (jsstring_eqb (id x)
                                           (lit "temp-" ++ decimal (Date_now w))))
                                ms)
                           ++ [userMessage; aiMessage]));
                sendMessageError := None;
                isMessageSending := false;
                isStreaming := false;
                streamingMessage := [];
                agentStatus := JStr [];
                abortControllerRef := None |};
           effects :=
             ((effects m ++ [Call_getToken])
              ++ [fetch_call w chat token content]) ++ reads |}).
Proof.
  intros Hpre Hc Hms Ht Hf Hok Hb He Hframes Hprog Hev Hu Ha Tu Ta.
  destruct (handleSendMessage_can_send w content m Hpre)
    as (chat' & uid & Hc' & _ & ->).
  assert (chat' = chat) by congruence. subst chat'.
  unfold try_catch_finally.
  rewrite (try_block_stream w content chat uid token response stream m
             Ht Hf Hok Hb).
  set (optimistic := optimisticUserMessage w chat uid content).
  match goal with
  | |- context [read_loop ?i ?d ?b ?c ?e ?m0] =>
      destruct (read_loop_outcome i c e d b m0) as (es & -> & Hes)
  end.
  rewrite He, finally_block_run. cbn [cells effects] in Hes |- *.
  rewrite Hframes in Hes |- *.
  rewrite blocks_outcome_app in Hes |- *.
  destruct (progress_blocks_outcome (id optimistic) progress
              (started_page optimistic (cells m)) Hprog) as (p1 & E1 & Hc1).
  rewrite E1 in Hes |- *. cbn [blocks_outcome] in Hes |- *.
  assert (Hc1' : currentChatData p1 =
                 Some (with_messages chat
                         (appendOptimistic optimistic (messages chat)))).
  { rewrite Hc1. unfold started_page. cbn [currentChatData]. now rewrite Hc. }
  assert (Hms1 : messages (with_messages chat
                             (appendOptimistic optimistic (messages chat)))
                 = map Message_to_js (ms ++ [optimistic])).
  { cbn [messages with_messages]. unfold appendOptimistic.
    now rewrite Hms, map_app. }
  rewrite (done_block_outcome (id optimistic) doneBlock data userMessage
             aiMessage _ _ p1 Hev Hu Ha Tu Ta Hc1' Hms1) in Hes |- *.
  cbn [fst snd app] in Hes |- *.
  exists es. split; [now apply only_reads|].
  f_equal. f_equal.
  assert (Hq : sendMessageError p1 = None).
  { pose proof (blocks_outcome_quiet (id optimistic) progress
                  (started_page optimistic (cells m))) as [Hq _].
    rewrite E1 in Hq. exact Hq. }
  unfold released_page.
  cbn [currentChatData sendMessageError with_currentChatData with_messages].
  rewrite Hq.
  rewrite filter_app. cbn [filter].
  rewrite jsstring_eqb_refl. cbn [negb]. rewrite app_nil_r.
  reflexivity.
Qed.

End Success.

Lemma successful_send_witness :
  exists reads,
    forallb is_read reads = true
    /\ handleSendMessage (H := Browser.platform)
         (Scenario.world (Some (lit "user_1"))
            (Scenario.streaming
               [lit "event: status" ++ [LF] ++ jlit "data: {'status':'thinking'}"
                ++ [LF];
                [LF] ++ lit "event: token" ++ [LF] ++ jlit "data: {'content':'Hi'}"
                ++ [LF; LF] ++ lit "event: done" ++ [LF]
                ++ jlit "data: {'userMessage':{'id':'u1'},'aiMessage':{'id':'a1'}}"
                ++ [LF; LF]]
               None))
         (lit "Hello")
         (Scenario.idle
            (Some (with_messages Scenario.chat
                     (map Message_to_js
                        [Scenario.persisted "m0" assistant "Hi"]))))
       = (inr tt,
          {| cells :=
               {| currentChatData :=
                    Some (with_messages
                            (with_messages Scenario.chat
                               (map Message_to_js
                                  [Scenario.persisted "m0" assistant "Hi"]))
                            (map Message_to_js
                               (filter
                                  (fun x =>
                                     negb (jsstring_eqb (id x)
                                             (lit "temp-"
                                              ++ decimal 1700000000000)))
                                  [Scenario.persisted "m0" assistant "Hi"])
                             ++ [JObj [(lit "id", JStr (lit "u1"))];
                                 JObj [(lit "id", JStr (lit "a1"))]]));
                  sendMessageError := None;
                  isMessageSending := false;
                  isStreaming := false;
                  streamingMessage := [];
                  agentStatus := JStr [];
                  abortControllerRef := None |};
             effects :=
               (([] ++ [Call_getToken])
                ++ [fetch_call
                      (Scenario.world (Some (lit "user_1"))
                         (Scenario.streaming
                            [lit "event: status" ++ [LF]
                             ++ jlit "data: {'status':'thinking'}" ++ [LF];
                             [LF] ++ lit "event: token" ++ [LF]
                             ++ jlit "data: {'content':'Hi'}" ++ [LF; LF]
                             ++ lit "event: done" ++ [LF]
                             ++ jlit "data: {'userMessage':{'id':'u1'},'aiMessage':{'id':'a1'}}"
                             ++ [LF; LF]]
                            None))
                      (with_messages Scenario.chat
                         (map Message_to_js
                            [Scenario.persisted "m0" assistant "Hi"]))
                      (Some (lit "tok")) (lit "Hello")])
               ++ reads |}).
Proof.
  eapply (@successful_send Browser.platform
            (Scenario.world (Some (lit "user_1")) _) (lit "Hello")
            _ [Scenario.persisted "m0" assistant "Hi"] (Some (lit "tok"))
            _ _
            [lit "event: status" ++ [LF] ++ jlit "data: {'status':'thinking'}";
             lit "event: token" ++ [LF] ++ jlit "data: {'content':'Hi'}"]
            (lit "event: done" ++ [LF]
             ++ jlit "data: {'userMessage':{'id':'u1'},'aiMessage':{'id':'a1'}}")
            (JObj [(lit "userMessage", JObj [(lit "id", JStr (lit "u1"))]);
                   (lit "aiMessage", JObj [(lit "id", JStr (lit "a1"))])]));
    try reflexivity.
  - apply Forall_cons; [|apply Forall_cons; [|apply Forall_nil]].
    + right. exists (JStr (lit "thinking")).
      exists (JObj [(lit "status", JStr (lit "thinking"))]).
      split; [|reflexivity]. split; [reflexivity|].
      exists (jlit "{'status':'thinking'}"). repeat split; reflexivity.
    + left. exists (lit "Hi").
      exists (JObj [(lit "content", JStr (lit "Hi"))]).
      split; [|reflexivity]. split; [reflexivity|].
      exists (jlit "{'content':'Hi'}"). repeat split; reflexivity.
  - split; [reflexivity|].
    exists (jlit "{'userMessage':{'id':'u1'},'aiMessage':{'id':'a1'}}").
    repeat split; reflexivity.
Defined.
